(** * Texta: the CSV column sniffer, the sequential batch runner, the CSV
      exporter and the rule-based text analysis service

    Shallow embedding of

    - [src/services/textAnalysisService.js]: [analyzeText], [analyzeSentiment];
    - the [TextAnalyzer] component: [parseCSV], [handleAnalyzeCSV],
      [generateResultsCSV].

    A JavaScript string is a sequence of UTF-16 code units.  The model takes
    the code units of the Latin-1 range U+0000..U+00FF, that is [ascii], and a
    string is a [list ascii].  White space, word characters and lower-casing
    are the ECMAScript ones restricted to that range. *)

From Stdlib Require Import Ascii String ZArith NArith Bool Lia Arith DecimalString List.
Import ListNotations.

Set Implicit Arguments.

(** ** Strings *)

Abbreviation str := (list ascii) (only parsing).

Definition lit (s : string) : str := list_ascii_of_string s.

Definition LF : ascii := ascii_of_nat 10.
Definition COMMA : ascii := ascii_of_nat 44.
Definition DQUOTE : ascii := ascii_of_nat 34.

Module JS.

Definition code (c : ascii) : N := N_of_ascii c.

(** [WhiteSpace] and [LineTerminator] of ECMAScript below U+0100: TAB, LF,
    VT, FF, CR, SP and NBSP.  This is the class [\s] and what [trim]
    removes. *)
Definition isWhiteSpace (c : ascii) : bool :=
  let n := code c in
  ((9 <=? n) && (n <=? 13) || (n =? 32) || (n =? 160))%N.

(** The class [\w] is [[A-Za-z0-9_]]; [\W] is its complement. *)
Definition isWordChar (c : ascii) : bool :=
  let n := code c in
  ((97 <=? n) && (n <=? 122) || (65 <=? n) && (n <=? 90)
   || (48 <=? n) && (n <=? 57) || (n =? 95))%N.

Definition isNonWordChar (c : ascii) : bool := negb (isWordChar c).

(** The class [[.!?]]. *)
Definition isSentenceEnd (c : ascii) : bool :=
  let n := code c in ((n =? 46) || (n =? 33) || (n =? 63))%N.

(** [String.prototype.toLowerCase] below U+0100: A-Z, and U+00C0..U+00DE
    except the multiplication sign U+00D7, move up by 32. *)
Definition toLowerChar (c : ascii) : ascii :=
  let n := code c in
  if ((65 <=? n) && (n <=? 90)
      || (192 <=? n) && (n <=? 222) && negb (n =? 215))%N
  then ascii_of_N (n + 32) else c.

Definition toLowerCase (s : str) : str := map toLowerChar s.

Fixpoint dropWhile (p : ascii -> bool) (s : str) : str :=
  match s with
  | [] => []
  | c :: s' => if p c then dropWhile p s' else s
  end.

Definition trimStart (s : str) : str := dropWhile isWhiteSpace s.
Definition trimEnd (s : str) : str := rev (dropWhile isWhiteSpace (rev s)).
Definition trim (s : str) : str := trimEnd (trimStart s).

(** Truthiness of a string: [if (s)], [filter(s => s)]. *)
Definition truthy (s : str) : bool :=
  match s with [] => false | _ :: _ => true end.

Fixpoint str_eqb (a b : str) : bool :=
  match a, b with
  | [], [] => true
  | x :: a', y :: b' => Ascii.eqb x y && str_eqb a' b'
  | _, _ => false
  end.

Fixpoint startsWith (s p : str) : bool :=
  match p, s with
  | [], _ => true
  | x :: p', y :: s' => Ascii.eqb x y && startsWith s' p'
  | _ :: _, [] => false
  end.

(** [String.prototype.includes]: some suffix of [s] starts with [p]. *)
Fixpoint includes (s p : str) : bool :=
  startsWith s p ||
  match s with
  | [] => false
  | _ :: s' => includes s' p
  end.

(** [Array.prototype.includes] on an array of strings. *)
Definition arrayIncludes (l : list str) (w : str) : bool :=
  existsb (str_eqb w) l.

Definition consHead (c : ascii) (l : list str) : list str :=
  match l with
  | [] => [[c]]
  | w :: ws => (c :: w) :: ws
  end.

(** [s.split(sep)] for a one-character separator string: the pieces between
    the occurrences of [sep]; never the empty array. *)
Fixpoint split (sep : ascii) (s : str) : list str :=
  match s with
  | [] => [[]]
  | c :: s' =>
      if Ascii.eqb c sep then [] :: split sep s'
      else consHead c (split sep s')
  end.

(** [Array.prototype.join] with a one-character separator. *)
Fixpoint join (sep : ascii) (l : list str) : str :=
  match l with
  | [] => []
  | [w] => w
  | w :: ws => w ++ sep :: join sep ws
  end.

(** [s.split(regexp)], the loop of [RegExp.prototype[Symbol.split]].  The
    matcher [m] is given the rest of the string from the position [q] under
    test and answers the length of the match there.  [fresh] says that [q]
    is the start [p] of the current piece, [skip] counts the characters of
    the last match still to be passed over.  An empty match is no split
    point when [q = p]. *)
Fixpoint splitLoop (m : str -> option nat) (fresh : bool) (skip : nat)
         (s : str) : list str :=
  match s with
  | [] => [[]]
  | c :: s' =>
      match skip with
      | S k => splitLoop m true k s'
      | O =>
          match m s with
          | Some (S n) => [] :: splitLoop m true n s'
          | Some O =>
              if fresh then consHead c (splitLoop m false 0 s')
              else [] :: consHead c (splitLoop m false 0 s')
          | None => consHead c (splitLoop m false 0 s')
          end
      end
  end.

Definition splitRegExp (m : str -> option nat) (s : str) : list str :=
  match s with
  | [] => match m [] with Some _ => [] | None => [[]] end
  | _ :: _ => splitLoop m true 0 s
  end.

Fixpoint spanLength (p : ascii -> bool) (s : str) : nat :=
  match s with
  | [] => 0
  | c :: s' => if p c then S (spanLength p s') else 0
  end.

(** The pattern [[class]+] at the head of [s]: greedy, at least one. *)
Definition matchPlus (p : ascii -> bool) (s : str) : option nat :=
  match spanLength p s with
  | O => None
  | S n => Some (S n)
  end.

Fixpoint lastIndexOf (c : ascii) (s : str) : option nat :=
  match s with
  | [] => None
  | x :: s' =>
      match lastIndexOf c s' with
      | Some j => Some (S j)
      | None => if Ascii.eqb x c then Some 0 else None
      end
  end.

(** The pattern [\n\s*\n] at the head of [s]: a line feed, then the longest
    stretch of the following white space that still ends in a line feed. *)
Definition matchBlankLine (s : str) : option nat :=
  match s with
  | [] => None
  | c :: rest =>
      if Ascii.eqb c LF then
        match lastIndexOf LF (firstn (spanLength isWhiteSpace rest) rest) with
        | Some j => Some (j + 2)
        | None => None
        end
      else None
  end.

(** [s.replace(/DQUOTE/g, '')]: every double quote is deleted. *)
Definition removeQuotes (s : str) : str :=
  filter (fun c => negb (Ascii.eqb c DQUOTE)) s.

(** [s.replace(/DQUOTE/g, DQUOTE DQUOTE)]: every double quote is doubled. *)
Definition doubleQuotes (s : str) : str :=
  flat_map (fun c => if Ascii.eqb c DQUOTE then [DQUOTE; DQUOTE] else [c]) s.

(** [Array.prototype.findIndex]; [None] stands for the answer [-1]. *)
Fixpoint findIndex (A : Type) (p : A -> bool) (l : list A) : option nat :=
  match l with
  | [] => None
  | x :: l' =>
      if p x then Some 0
      else match findIndex p l' with
           | Some i => Some (S i)
           | None => None
           end
  end.

(** A call that returns or throws an [Error] with a message. *)
Inductive completion (A : Type) : Type :=
| Return (a : A)
| Throw (message : str).
Arguments Throw {A} message.

End JS.

(** ** The CSV column sniffer *)

Module Csv.
Import JS.

Record CsvBatch : Type := {
  headers : list str;
  texts : list str;
  totalRows : nat;
  hasHeaders : bool;
  warning : option str
}.

Definition headerIndicators : list str :=
  map lit ["text"; "content"; "message"; "sentence"; "comment"; "review";
           "feedback"; "data"]%string.

(** [line => line.trim()] used as a filter: the lines that are not blank. *)
Definition notBlank (line : str) : bool := truthy (trim line).

Definition nonBlankLines (csvContent : str) : list str :=
  filter notBlank (split LF csvContent).

(** [line.split(',').map(v => removeQuotes(v.trim()))] *)
Definition cells (line : str) : list str :=
  map (fun v => removeQuotes (trim v)) (split COMMA line).

(** [firstLineLower.includes(indicator)] for some indicator. *)
Definition hasHeaderIndicators (firstLine : str) : bool :=
  let firstLineLower := toLowerCase firstLine in
  existsb (fun indicator => includes firstLineLower indicator)
          headerIndicators.

(** The predicate given to [headers.findIndex]. *)
Definition isTextHeader (h : str) : bool :=
  str_eqb (toLowerCase h) (lit "text")
  || str_eqb (toLowerCase h) (lit "content")
  || str_eqb (toLowerCase h) (lit "message")
  || str_eqb (toLowerCase h) (lit "sentence")
  || str_eqb (toLowerCase h) (lit "comment")
  || str_eqb (toLowerCase h) (lit "review")
  || str_eqb (toLowerCase h) (lit "feedback")
  || str_eqb (toLowerCase h) (lit "data").

(** The body of the extraction loops: what one line pushes on [texts]. *)
Definition rowText (column : nat) (line : str) : option str :=
  if truthy (trim line) then
    match nth_error (cells line) column with
    | Some v => if truthy v && (0 <? length v) then Some v else None
    | None => None
    end
  else None.

(** [for (let i = startIndex; i < lines.length; i++) ...] over the lines
    from [startIndex] on. *)
Fixpoint extract (column : nat) (rows : list str) : list str :=
  match rows with
  | [] => []
  | line :: rows' =>
      match rowText column line with
      | Some v => v :: extract column rows'
      | None => extract column rows'
      end
  end.

(** The three choices [parseCSV] makes from the first line when two lines
    or more are not blank: where the data starts, the header names, and the
    column the texts are taken from (column 0 when no header name is a
    keyword). *)
Definition startIndex (firstLine : str) : nat :=
  if hasHeaderIndicators firstLine then 1 else 0.

Definition selectedHeaders (firstLine : str) : list str :=
  if hasHeaderIndicators firstLine then cells firstLine else [lit "text"].

Definition textColumn (firstLine : str) : nat :=
  match findIndex isTextHeader (selectedHeaders firstLine) with
  | Some textColumnIndex => textColumnIndex
  | None => 0
  end.

Definition noTextColumnWarning : str :=
  lit "No text column found, using first column as text".

Definition emptyFileMessage : str := lit "CSV file is empty".

Definition parseCSV (csvContent : str) : completion CsvBatch :=
  let lines := nonBlankLines csvContent in
  match lines with
  | [] => Throw emptyFileMessage
  | [line] =>
      Return {| headers := [lit "text"];
                texts := [trim line];
                totalRows := 1;
                hasHeaders := false;
                warning := None |}
  | firstLine :: _ :: _ =>
      let hasHeaderIndicators := hasHeaderIndicators firstLine in
      let headers :=
        if hasHeaderIndicators then cells firstLine else [lit "text"] in
      let startIndex := if hasHeaderIndicators then 1 else 0 in
      match findIndex isTextHeader headers with
      | None =>
          let texts := extract 0 (skipn startIndex lines) in
          Return {| headers := headers;
                    texts := texts;
                    totalRows := length texts;
                    hasHeaders := hasHeaderIndicators;
                    warning := Some noTextColumnWarning |}
      | Some textColumnIndex =>
          let texts := extract textColumnIndex (skipn startIndex lines) in
          Return {| headers := headers;
                    texts := texts;
                    totalRows := length texts;
                    hasHeaders := hasHeaderIndicators;
                    warning := None |}
      end
  end.

End Csv.

(** ** Numbers

    A JavaScript number is an IEEE 754 binary64.  This program only forms
    counts, quotients and products of counts, so the model has the non-negative
    numbers: a finite one is [mant * 2 ^ expo], and there are [Infinity] and
    [NaN].  Division and multiplication round the exact result to 53
    significant bits, to nearest and ties to even.  The exponent is not
    bounded: counts stay below 2^53, so no result here is subnormal or
    overflows. *)

Module Num.
Open Scope Z_scope.

Record double : Type := { mant : Z; expo : Z }.

Inductive number : Type :=
| Finite (x : double)
| Infinity
| NaN.

(** The nearest integer to [n / d], ties to the even one ([0 < d]). *)
Definition rne (n d : Z) : Z :=
  let q := n / d in
  match (2 * (n mod d)) ?= d with
  | Lt => q
  | Gt => q + 1
  | Eq => if Z.even q then q else q + 1
  end.

(** [2 ^ e <= n / d], for an exponent of either sign. *)
Definition gePow2 (n d e : Z) : bool :=
  d * 2 ^ Z.max 0 e <=? n * 2 ^ Z.max 0 (- e).

(** [floor (log2 (n / d))] for [0 < n] and [0 < d]. *)
Definition floorLog2 (n d : Z) : Z :=
  let l := Z.log2 n - Z.log2 d in
  if gePow2 n d l then l else l - 1.

(** The binary64 nearest to the rational [n / d] ([0 <= n], [0 < d]). *)
Definition roundRatio (n d : Z) : double :=
  if n =? 0 then {| mant := 0; expo := 0 |}
  else
    let e := floorLog2 n d - 52 in
    {| mant := rne (n * 2 ^ Z.max 0 (- e)) (d * 2 ^ Z.max 0 e); expo := e |}.

Definition ofZ (k : Z) : number := Finite {| mant := k; expo := 0 |}.
Definition ofNat (k : nat) : number := ofZ (Z.of_nat k).

Definition isZero (x : double) : bool := mant x =? 0.

(** [a / b] *)
Definition div (a b : number) : number :=
  match a, b with
  | NaN, _ | _, NaN => NaN
  | Infinity, Infinity => NaN
  | Infinity, Finite _ => Infinity
  | Finite x, Infinity => Finite {| mant := 0; expo := 0 |}
  | Finite x, Finite y =>
      if isZero y then (if isZero x then NaN else Infinity)
      else
        let s := expo x - expo y in
        Finite (roundRatio (mant x * 2 ^ Z.max 0 s) (mant y * 2 ^ Z.max 0 (- s)))
  end.

(** [a * b] *)
Definition mul (a b : number) : number :=
  match a, b with
  | NaN, _ | _, NaN => NaN
  | Infinity, Infinity => Infinity
  | Infinity, Finite y => if isZero y then NaN else Infinity
  | Finite x, Infinity => if isZero x then NaN else Infinity
  | Finite x, Finite y =>
      let s := expo x + expo y in
      Finite (roundRatio (mant x * mant y * 2 ^ Z.max 0 s) (2 ^ Z.max 0 (- s)))
  end.

(** [Math.round]: [floor (x + 1/2)], computed exactly. *)
Definition round (a : number) : number :=
  match a with
  | Finite x =>
      if 0 <=? expo x then ofZ (mant x * 2 ^ expo x)
      else ofZ ((2 * mant x + 2 ^ (- expo x)) / 2 ^ (1 - expo x))
  | Infinity => Infinity
  | NaN => NaN
  end.

(** [x <= y] on finite numbers. *)
Definition leDouble (x y : double) : bool :=
  mant x * 2 ^ Z.max 0 (expo x - expo y)
  <=? mant y * 2 ^ Z.max 0 (expo y - expo x).

(** [Math.max(a, b)] *)
Definition max (a b : number) : number :=
  match a, b with
  | NaN, _ | _, NaN => NaN
  | Infinity, _ | _, Infinity => Infinity
  | Finite x, Finite y => if leDouble x y then b else a
  end.

Definition isFinite (a : number) : bool :=
  match a with Finite _ => true | _ => false end.


(** [Math.round(x * 100)] for the double [x = M * 2 ^ -53] with
    [2 ^ 52 <= M <= 2 ^ 53], as an integer. *)
Definition hundredTimes (M : Z) : Z :=
  if 100 * M <? 2 ^ 59
  then (2 * rne (100 * M * 2 ^ 47) (2 ^ 53) + 2 ^ 47) / 2 ^ 48
  else (2 * rne (100 * M * 2 ^ 46) (2 ^ 53) + 2 ^ 46) / 2 ^ 47.

(** The percentage in exact arithmetic: [100 * p / t] rounded to the
    nearest integer, halves up. *)
Definition exactPercentage (p t : Z) : Z := (200 * p + t) / (2 * t).

(** At a half, [100 * p / t = j + 1/2], the double nearest to [p / t]
    depends on [j] only, and the fifty cases are run: the code gives [j + 1]
    except at 56.5 and 57.5, where it gives [j]. *)
Definition halfCase (j : Z) : Z :=
  hundredTimes (rne ((2 * j + 1) * 2 ^ 53) 200).

End Num.

(** ** The text analysis service *)

Module TextAnalysisService.
Import JS.

Record Sentiment : Type := {
  label : str;
  confidence : Num.number;
  method : str
}.

Record Analysis : Type := {
  wordCount : nat;
  characterCount : nat;
  characterCountNoSpaces : nat;
  sentenceCount : nat;
  paragraphCount : nat;
  averageWordsPerSentence : Num.number;
  sentiment : Sentiment
}.

Definition positiveWords : list str :=
  map lit ["good"; "great"; "excellent"; "amazing"; "wonderful"; "fantastic";
           "awesome"; "love"; "like"; "happy"; "pleased"; "satisfied";
           "perfect"; "brilliant"; "outstanding"; "superb"; "marvelous";
           "terrific"; "fabulous"; "incredible"]%string.

Definition negativeWords : list str :=
  map lit ["bad"; "terrible"; "awful"; "horrible"; "hate"; "dislike"; "sad";
           "angry"; "frustrated"; "disappointed"; "disgusted"; "annoyed";
           "furious"; "upset"; "depressed"; "miserable"; "pathetic";
           "useless"; "worthless"; "dreadful"]%string.

Definition ruleBased : str := lit "Rule-based Analysis".

(** [text.toLowerCase().split(/\W+/)] *)
Definition tokens (text : str) : list str :=
  splitRegExp (matchPlus isNonWordChar) (toLowerCase text).

(** The body of [words.forEach]: the two counters after one more word. *)
Definition scoreWord (scores : nat * nat) (word : str) : nat * nat :=
  let '(positiveScore, negativeScore) := scores in
  let positiveScore :=
    if arrayIncludes positiveWords word then S positiveScore
    else positiveScore in
  let negativeScore :=
    if arrayIncludes negativeWords word then S negativeScore
    else negativeScore in
  (positiveScore, negativeScore).

Definition scores (words : list str) : nat * nat :=
  fold_left scoreWord words (0, 0)%nat.

(** How many of the words are in a word list. *)
Definition countIn (wordList words : list str) : nat :=
  length (filter (arrayIncludes wordList) words).

(** [Math.round((score / totalScore) * 100)] *)
Definition percentage (score totalScore : nat) : Num.number :=
  Num.round (Num.mul (Num.div (Num.ofNat score) (Num.ofNat totalScore))
                     (Num.ofZ 100)).

Definition analyzeSentiment (text : str) : Sentiment :=
  let words := tokens text in
  let '(positiveScore, negativeScore) := scores words in
  let totalScore := (positiveScore + negativeScore)%nat in
  if (totalScore =? 0)%nat then
    {| label := lit "NEUTRAL"; confidence := Num.ofZ 50;
       method := ruleBased |}
  else if (negativeScore <? positiveScore)%nat then
    let confidence := percentage positiveScore totalScore in
    {| label := lit "POSITIVE";
       confidence := Num.max confidence (Num.ofZ 60);
       method := ruleBased |}
  else if (positiveScore <? negativeScore)%nat then
    let confidence := percentage negativeScore totalScore in
    {| label := lit "NEGATIVE";
       confidence := Num.max confidence (Num.ofZ 60);
       method := ruleBased |}
  else
    {| label := lit "NEUTRAL"; confidence := Num.ofZ 50;
       method := ruleBased |}.

(** The two shapes of the answer, with the percentage in exact
    arithmetic: a tie, and a majority of [majorityCount] hits over
    [minorityCount]. *)
Definition neutral : Sentiment :=
  {| label := lit "NEUTRAL"; confidence := Num.ofZ 50;
     method := ruleBased |}.

Definition majority (side : str) (majorityCount minorityCount : nat)
  : Sentiment :=
  {| label := side;
     confidence :=
       Num.ofZ (Z.max 60 (Num.exactPercentage
                            (Z.of_nat majorityCount)
                            (Z.of_nat (majorityCount + minorityCount))));
     method := ruleBased |}.

(** [text.split(re).filter(s => s.trim().length > 0).length] *)
Definition countNonBlank (pieces : list str) : nat :=
  length (filter (fun s => (0 <? length (trim s))%nat) pieces).

Definition analyzeText (text : str) : completion Analysis :=
  if negb (truthy (trim text)) then
    Throw (lit "Please enter some text to analyze")
  else
    let words := splitRegExp (matchPlus isWhiteSpace) (trim text) in
    let characters := length text in
    let charactersNoSpaces :=
      length (filter (fun c => negb (isWhiteSpace c)) text) in
    let sentences :=
      countNonBlank (splitRegExp (matchPlus isSentenceEnd) text) in
    let paragraphs := countNonBlank (splitRegExp matchBlankLine text) in
    let sentimentResult := analyzeSentiment text in
    Return {| wordCount := length words;
              characterCount := characters;
              characterCountNoSpaces := charactersNoSpaces;
              sentenceCount := sentences;
              paragraphCount := paragraphs;
              averageWordsPerSentence :=
                Num.div
                  (Num.round
                     (Num.mul (Num.div (Num.ofNat (length words))
                                       (Num.ofNat sentences))
                              (Num.ofZ 10)))
                  (Num.ofZ 10);
              sentiment := sentimentResult |}.

End TextAnalysisService.

(** ** The analyzer component: batch runner and CSV export *)

Module Analyzer.
Import JS Csv.

(** What the backend answers for one text, and what the runner stores for a
    row that failed.  A field the object does not have is [None]. *)
Record AnalysisResult : Type := {
  text : option str;
  error : option str;
  sentiment : option str;
  confidence : option Num.number;
  model_name : option str;
  joy_score : option Num.number;
  sadness_score : option Num.number;
  anger_score : option Num.number;
  fear_score : option Num.number;
  formal_score : option Num.number;
  casual_score : option Num.number;
  emotional_score : option Num.number;
  objective_score : option Num.number
}.

(** The state of the component that [handleAnalyzeCSV] reads and writes. *)
Record State : Type := {
  csvData : option CsvBatch;
  selectedModel : str;
  analysis : option AnalysisResult;
  isProcessingCsv : bool;
  csvResults : option (list AnalysisResult);
  csvProgress : nat * nat;
  currentCsvIndex : nat
}.

Definition setIsProcessingCsv (b : bool) (st : State) : State :=
  {| csvData := csvData st; selectedModel := selectedModel st;
     analysis := analysis st; isProcessingCsv := b;
     csvResults := csvResults st; csvProgress := csvProgress st;
     currentCsvIndex := currentCsvIndex st |}.

Definition setCsvProgress (current total : nat) (st : State) : State :=
  {| csvData := csvData st; selectedModel := selectedModel st;
     analysis := analysis st; isProcessingCsv := isProcessingCsv st;
     csvResults := csvResults st; csvProgress := (current, total);
     currentCsvIndex := currentCsvIndex st |}.

Definition setCsvResults (results : list AnalysisResult) (st : State)
  : State :=
  {| csvData := csvData st; selectedModel := selectedModel st;
     analysis := analysis st; isProcessingCsv := isProcessingCsv st;
     csvResults := Some results; csvProgress := csvProgress st;
     currentCsvIndex := currentCsvIndex st |}.

Definition setCurrentCsvIndex (i : nat) (st : State) : State :=
  {| csvData := csvData st; selectedModel := selectedModel st;
     analysis := analysis st; isProcessingCsv := isProcessingCsv st;
     csvResults := csvResults st; csvProgress := csvProgress st;
     currentCsvIndex := i |}.

Definition setAnalysis (result : AnalysisResult) (st : State) : State :=
  {| csvData := csvData st; selectedModel := selectedModel st;
     analysis := Some result; isProcessingCsv := isProcessingCsv st;
     csvResults := csvResults st; csvProgress := csvProgress st;
     currentCsvIndex := currentCsvIndex st |}.

(** The object pushed in the [catch] of one row. *)
Definition errorResult (text message model : str) : AnalysisResult :=
  {| text := Some text;
     error := Some message;
     sentiment := Some (lit "ERROR");
     confidence := Some (Num.ofZ 0);
     model_name := Some model;
     joy_score := None; sadness_score := None; anger_score := None;
     fear_score := None; formal_score := None; casual_score := None;
     emotional_score := None; objective_score := None |}.

Section BatchRunner.

(** [apiService.analyzeSentiment(text, model)], awaited.  The first
    argument is the number of calls made before in this run: the backend
    may answer the same text differently at different times. *)
Variable analyzeSentiment :
  nat -> str -> str -> completion AnalysisResult.

(** The [for] loop from index [i] on, over the texts still to do. *)
Fixpoint analyzeRows (i total : nat) (rest : list str)
         (results : list AnalysisResult) (st : State)
  : list AnalysisResult * State :=
  match rest with
  | [] => (results, st)
  | text :: rest' =>
      let results :=
        match analyzeSentiment i text (selectedModel st) with
        | Return result => results ++ [result]
        | Throw message =>
            results ++ [errorResult text message (selectedModel st)]
        end in
      analyzeRows (S i) total rest' results (setCsvProgress (S i) total st)
  end.

(** What row [i] with text [text] leaves in [results], and the rows from
    [i] on. *)
Definition rowResult (model : str) (i : nat) (text : str)
  : AnalysisResult :=
  match analyzeSentiment i text model with
  | Return result => result
  | Throw message => errorResult text message model
  end.

Fixpoint rowResults (model : str) (i : nat) (rest : list str)
  : list AnalysisResult :=
  match rest with
  | [] => []
  | text :: rest' => rowResult model i text :: rowResults model (S i) rest'
  end.

Definition handleAnalyzeCSV (st : State) : State :=
  match csvData st with
  | None => st
  | Some data =>
      if (length (texts data) =? 0)%nat then st
      else
        let total := length (texts data) in
        let st := setCsvProgress 0 total (setIsProcessingCsv true st) in
        let '(results, st) := analyzeRows 0 total (texts data) [] st in
        let st := setCurrentCsvIndex 0 (setCsvResults results st) in
        let st :=
          match results with
          | first :: _ => setAnalysis first st
          | [] => st
          end in
        setCsvProgress 0 0 (setIsProcessingCsv false st)
  end.

End BatchRunner.

Section CsvExport.

(** [String(x)] for a number [x]: the decimal rendering of ECMAScript's
    [Number::toString], taken as given. *)
Variable numberToString : Num.number -> str.

Definition numberTruthy (x : Num.number) : bool :=
  match x with
  | Num.Finite d => negb (Num.isZero d)
  | Num.Infinity => true
  | Num.NaN => false
  end.

(** [String(field || fallback)] for a string field. *)
Definition stringCell (field : option str) (fallback : str) : str :=
  match field with
  | Some s => if truthy s then s else fallback
  | None => fallback
  end.

(** [String(field || 0)] for a number field. *)
Definition numberCell (field : option Num.number) : str :=
  match field with
  | Some x =>
      if numberTruthy x then numberToString x
      else numberToString (Num.ofZ 0)
  | None => numberToString (Num.ofZ 0)
  end.

(** [String(result.text)] *)
Definition textCell (field : option str) : str :=
  match field with
  | Some s => s
  | None => lit "undefined"
  end.

Definition exportHeaders : list str :=
  map lit ["Text"; "Sentiment"; "Confidence"; "Model"; "Joy Score";
           "Sadness Score"; "Anger Score"; "Fear Score"; "Formal Score";
           "Casual Score"; "Emotional Score"; "Objective Score"]%string.

Definition exportRow (result : AnalysisResult) : list str :=
  [ textCell (text result);
    stringCell (sentiment result) (lit "ERROR");
    numberCell (confidence result);
    stringCell (model_name result) (lit "unknown");
    numberCell (joy_score result);
    numberCell (sadness_score result);
    numberCell (anger_score result);
    numberCell (fear_score result);
    numberCell (formal_score result);
    numberCell (casual_score result);
    numberCell (emotional_score result);
    numberCell (objective_score result) ].

(** One cell between double quotes, its own double quotes doubled. *)
Definition quoteCell (cell : str) : str :=
  DQUOTE :: doubleQuotes cell ++ [DQUOTE].

Definition exportLine (row : list str) : str :=
  join COMMA (map quoteCell row).

Definition generateResultsCSV (results : list AnalysisResult) : str :=
  let rows := map exportRow results in
  join LF (map exportLine (exportHeaders :: rows)).


(** The first cell of the exported row of [r]: [String(r.text)]. *)
Definition exportedText (r : AnalysisResult) : str := textCell (text r).

(** A result that survives the export and re-import: its text has no
    comma and no line feed and is more than double quotes, and no other
    cell of its row has a line feed. *)
Definition exportable (r : AnalysisResult) : Prop :=
  ~ In COMMA (exportedText r) /\
  ~ In LF (exportedText r) /\
  removeQuotes (exportedText r) <> [] /\
  Forall (fun cell => ~ In LF cell) (tl (exportRow r)).

Definition headerLine : str := exportLine exportHeaders.

Definition resultLine (r : AnalysisResult) : str :=
  exportLine (exportRow r).

Definition hasChar (c : ascii) (s : str) : bool := existsb (Ascii.eqb c) s.

(** [exportable], as a test. *)
Definition exportableb (r : AnalysisResult) : bool :=
  negb (hasChar COMMA (exportedText r))
  && negb (hasChar LF (exportedText r))
  && truthy (removeQuotes (exportedText r))
  && forallb (fun cell => negb (hasChar LF cell))
             (tl (exportRow r)).

End CsvExport.

End Analyzer.

(** ** Inputs for the examples *)

Module Samples.
Import JS Csv Analyzer.

(** The sample of the specification: a header line and two data lines. *)
Definition headerSample : str :=
  lit "text" ++ LF :: lit "apple" ++ LF :: lit "banana".

(** Two lines without header keyword. *)
Definition fruitSample : str :=
  lit "apple,red" ++ LF :: lit "banana,yellow".

(** Two lines whose first cells are empty. *)
Definition commaSample : str := lit "," ++ LF :: lit ",".

(** One line between double quotes. *)
Definition quotedSample : str := DQUOTE :: lit "hi" ++ [DQUOTE].

(** A header line that contains a keyword inside a longer name. *)
Definition looseHeaderSample : str :=
  lit "my_text,label" ++ LF :: lit "hello,1" ++ LF :: lit "world,2".

(** Text in the third column, and a first data row of one cell only. *)
Definition shortRowSample : str :=
  lit "id,n,text" ++ LF :: lit "1" ++ LF :: lit "2,b,ok".

(** A backend that refuses every call. *)
Definition refusing : nat -> str -> str -> completion AnalysisResult :=
  fun _ _ _ => Throw (lit "Analysis failed").

(** A backend that labels every text [POSITIVE], except that its call
    number 1 fails. *)
Definition positiveResult (text model : str) : AnalysisResult :=
  {| text := Some text; error := None;
     sentiment := Some (lit "POSITIVE");
     confidence := Some (Num.ofZ 1);
     model_name := Some model;
     joy_score := None; sadness_score := None; anger_score := None;
     fear_score := None; formal_score := None; casual_score := None;
     emotional_score := None; objective_score := None |}.

Definition failingSecond : nat -> str -> str -> completion AnalysisResult :=
  fun i text model =>
    if (i =? 1)%nat then Throw (lit "Analysis failed")
    else Return (positiveResult text model).

(** The state of the component right after a file was loaded. *)
Definition loaded (data : CsvBatch) : State :=
  {| csvData := Some data;
     selectedModel := lit "distilbert-base-uncased-finetuned-sst-2-english";
     analysis := None;
     isProcessingCsv := false;
     csvResults := None;
     csvProgress := (0, 0)%nat;
     currentCsvIndex := 0 |}.

Definition emptyBatch : CsvBatch :=
  {| headers := [lit "text"]; texts := []; totalRows := 0;
     hasHeaders := false; warning := None |}.

Definition threeTexts : CsvBatch :=
  {| headers := [lit "text"];
     texts := [lit "one"; lit "two"; lit "three"]; totalRows := 3;
     hasHeaders := true; warning := None |}.

(** A rendering of numbers to run the examples with.  It is ECMAScript's
    [Number::toString] on the integers below 10^21, on [Infinity] and on
    [NaN], the only numbers of the examples; for another number it writes
    the exact decimal expansion, where ECMAScript writes the shortest
    decimal that reads back as the same number. *)
Definition decimal (n : Z) : str :=
  lit (NilEmpty.string_of_uint (N.to_uint (Z.to_N n))).

Definition sampleNumberToString (x : Num.number) : str :=
  match x with
  | Num.Finite d =>
      let m := Num.mant d in
      let e := Num.expo d in
      if (0 <=? e)%Z then decimal (m * 2 ^ e)
      else
        let k := (- e)%Z in
        let digits := decimal ((m mod 2 ^ k) * 5 ^ k) in
        decimal (m / 2 ^ k) ++ lit "."
        ++ repeat (ascii_of_nat 48) (Z.to_nat k - length digits) ++ digits
  | Num.Infinity => lit "Infinity"
  | Num.NaN => lit "NaN"
  end.

(** Two positive words and one negative word. *)
Definition mixedReview : str := lit "I love this. It is great, not bad!".

(** Sentence punctuation and nothing else. *)
Definition punctuationOnly : str := lit "...!?".

(** A result whose text has a comma in it. *)
Definition commaResult : AnalysisResult :=
  positiveResult (lit "Good, but slow") (lit "m").

Definition plainResults : list AnalysisResult :=
  [positiveResult (lit "fine day") (lit "m");
   errorResult (lit "so so") (lit "Analysis failed") (lit "m")].

End Samples.

(** * The rest of the component *)

Unset Implicit Arguments.

(** ** The bindings of [analyzeText] *)

Module TextParts.
Import JS TextAnalysisService.

(** [text.trim().split(/\s+/)] *)
Definition textWords (text : str) : list str :=
  splitRegExp (matchPlus isWhiteSpace) (trim text).

(** [text.split(/\n\s*\n/)] *)
Definition textParagraphs (text : str) : list str :=
  splitRegExp matchBlankLine text.

(** [text.replace(/\s/g, '')] *)
Definition withoutSpaces (text : str) : str :=
  filter (fun c => negb (isWhiteSpace c)) text.

(** The message of the error of [analyzeText]. *)
Definition blankMessage : str := lit "Please enter some text to analyze".

End TextParts.

Definition CR : ascii := ascii_of_nat 13.
Definition SLASH : ascii := ascii_of_nat 47.

(** ** The analyzer component: files, navigation and the report *)

Module Component.
Import JS Csv Analyzer.

(** What [downloadCSV(content, filename)] is asked to offer. *)
Record Download : Type := {
  content : str;
  filename : str
}.

(** [fixCSVFormat]: the download of the texts of the loaded batch as a
    one-column file under the header [text]; nothing when no batch is
    loaded. *)
Definition fixCSVFormat (st : State) : option Download :=
  match csvData st with
  | None => None
  | Some data =>
      let fixedCSV := join LF (lit "text" :: map quoteCell (texts data)) in
      Some {| content := fixedCSV; filename := lit "fixed_texts.csv" |}
  end.

(** A file with Windows line ends: every line feed after a carriage
    return. *)
Definition toCRLF (s : str) : str :=
  flat_map (fun c => if Ascii.eqb c LF then [CR; LF] else [c]) s.

End Component.

Module Page.
Import JS Csv Analyzer Component.

(** [s.endsWith(suffix)] *)
Definition endsWith (s suffix : str) : bool :=
  startsWith (rev s) (rev suffix).

(** An uploaded file: its name, and the text that [readAsText] loads. *)
Record File : Type := {
  name : str;
  loaded : str
}.

(** The rest of the state of the component that the handlers of files and
    of single texts use, around the [State] of the batch runner; [alerts]
    are the messages given to [alert], the last one first. *)
Record Page : Type := {
  state : State;
  text : str;
  fileContent : str;
  isLoading : bool;
  alerts : list str
}.

Definition onState (f : State -> State) (p : Page) : Page :=
  {| state := f (state p); text := text p; fileContent := fileContent p;
     isLoading := isLoading p; alerts := alerts p |}.

Definition setText (t : str) (p : Page) : Page :=
  {| state := state p; text := t; fileContent := fileContent p;
     isLoading := isLoading p; alerts := alerts p |}.

Definition setFileContent (t : str) (p : Page) : Page :=
  {| state := state p; text := text p; fileContent := t;
     isLoading := isLoading p; alerts := alerts p |}.

Definition setIsLoading (b : bool) (p : Page) : Page :=
  {| state := state p; text := text p; fileContent := fileContent p;
     isLoading := b; alerts := alerts p |}.

Definition alert (message : str) (p : Page) : Page :=
  {| state := state p; text := text p; fileContent := fileContent p;
     isLoading := isLoading p; alerts := message :: alerts p |}.

Definition setCsvData (data : CsvBatch) (st : State) : State :=
  {| csvData := Some data; selectedModel := selectedModel st;
     analysis := analysis st; isProcessingCsv := isProcessingCsv st;
     csvResults := csvResults st; csvProgress := csvProgress st;
     currentCsvIndex := currentCsvIndex st |}.

Definition setSelectedModel (model : str) (st : State) : State :=
  {| csvData := csvData st; selectedModel := model;
     analysis := analysis st; isProcessingCsv := isProcessingCsv st;
     csvResults := csvResults st; csvProgress := csvProgress st;
     currentCsvIndex := currentCsvIndex st |}.

(** [setAnalysis(x)] for an [x] that may be [undefined]. *)
Definition setAnalysisTo (result : option AnalysisResult) (st : State)
  : State :=
  {| csvData := csvData st; selectedModel := selectedModel st;
     analysis := result; isProcessingCsv := isProcessingCsv st;
     csvResults := csvResults st; csvProgress := csvProgress st;
     currentCsvIndex := currentCsvIndex st |}.

Definition emptyFileAlert : str :=
  lit "Error parsing CSV file. The file appears to be empty.".

Definition textColumnAlert : str :=
  lit "Error parsing CSV file. Please ensure it has a "
  ++ DQUOTE :: lit "text" ++ DQUOTE
  :: lit " column or the first column contains text data.".

(** The alert for the one warning that [parseCSV] sets. *)
Definition warningAlert : str :=
  lit "CSV loaded with warning: " ++ noTextColumnWarning.

(** The message of the [catch] of [handleFileUpload]. *)
Definition parseErrorAlert (message : str) : str :=
  if includes message (lit "empty") then emptyFileAlert
  else if includes message (lit "text column") then textColumnAlert
  else lit "Error parsing CSV file. " ++ message.

(** [handleFileUpload], with the [onload] of its reader: [file] is
    [event.target.files[0]]. *)
Definition handleFileUpload (file : option File) (p : Page) : Page :=
  match file with
  | None => p
  | Some f =>
      let content := loaded f in
      if endsWith (name f) (lit ".csv") then
        match parseCSV content with
        | Return csvContent =>
            let p := setText [] (onState (setCsvData csvContent) p) in
            match warning csvContent with
            | Some w =>
                if truthy w
                then alert (lit "CSV loaded with warning: " ++ w) p
                else p
            | None => p
            end
        | Throw message => alert (parseErrorAlert message) p
        end
      else setText content (setFileContent content p)
  end.

(** The object [{ error: message }]. *)
Definition errorOnly (message : str) : AnalysisResult :=
  {| Analyzer.text := None; error := Some message; sentiment := None;
     confidence := None; model_name := None;
     joy_score := None; sadness_score := None; anger_score := None;
     fear_score := None; formal_score := None; casual_score := None;
     emotional_score := None; objective_score := None |}.

(** [handleAnalyze]; [analyzeSentiment] is the one call it makes. *)
Definition handleAnalyze
           (analyzeSentiment : str -> str -> completion AnalysisResult)
           (p : Page) : Page :=
  if negb (truthy (trim (text p))) then p
  else
    let p := setIsLoading true p in
    let p :=
      match analyzeSentiment (text p) (selectedModel (state p)) with
      | Return result => onState (setAnalysis result) p
      | Throw message => onState (setAnalysis (errorOnly message)) p
      end in
    setIsLoading false p.

(** The condition under which the report of the batch and the two buttons
    under [Individual Results] are rendered, inside the panel of a result:
    [csvResults] is an array that is not empty. *)
Definition navigationRendered (st : State) : bool :=
  match csvResults st with
  | Some (_ :: _) => true
  | _ => false
  end.

Definition showAt (newIndex : nat) (st : State) : State :=
  match csvResults st with
  | Some results =>
      setAnalysisTo (nth_error results newIndex)
                    (setCurrentCsvIndex newIndex st)
  | None => st
  end.

(** [Math.max(0, currentCsvIndex - 1)] *)
Definition previousIndex (st : State) : nat :=
  Z.to_nat (Z.max 0 (Z.of_nat (currentCsvIndex st) - 1)).

(** [Math.min(csvResults.length - 1, currentCsvIndex + 1)] *)
Definition nextIndex (st : State) : nat :=
  match csvResults st with
  | Some results =>
      Z.to_nat (Z.min (Z.of_nat (length results) - 1)
                      (Z.of_nat (currentCsvIndex st) + 1))
  | None => currentCsvIndex st
  end.

Definition showPrevious (st : State) : State :=
  if navigationRendered st then showAt (previousIndex st) st else st.

Definition showNext (st : State) : State :=
  if navigationRendered st then showAt (nextIndex st) st else st.

(** The state when the component is mounted. *)
Definition initialState : State :=
  {| csvData := None;
     selectedModel := lit "distilbert-base-uncased-finetuned-sst-2-english";
     analysis := None;
     isProcessingCsv := false;
     csvResults := None;
     csvProgress := (0, 0)%nat;
     currentCsvIndex := 0 |}.

Definition initialPage : Page :=
  {| state := initialState; text := []; fileContent := [];
     isLoading := false; alerts := [] |}.

(** What the user can do, each handler run to its end before the next:
    choose a file, type a text, select a model, analyze the text, analyze
    the batch (against any backend), and step through the results. *)
Inductive step : Page -> Page -> Prop :=
| StepUpload file p :
    step p (handleFileUpload file p)
| StepType t p :
    step p (setText t p)
| StepSelect model p :
    step p (onState (setSelectedModel model) p)
| StepAnalyze backend p :
    step p (handleAnalyze backend p)
| StepAnalyzeCSV backend p :
    step p (onState (handleAnalyzeCSV backend) p)
| StepPrevious p :
    step p (onState showPrevious p)
| StepNext p :
    step p (onState showNext p).

Inductive reachable : Page -> Prop :=
| ReachInitial : reachable initialPage
| ReachStep p q : reachable p -> step p q -> reachable q.

(** The index shown is an index of the results. *)
Definition indexInRange (st : State) : Prop :=
  match csvResults st with
  | Some results => (currentCsvIndex st < length results)%nat
  | None => True
  end.




End Page.

Module Display.
Import JS Csv Analyzer Component Page.



Definition POSITIVE : str := lit "POSITIVE".
Definition NEGATIVE : str := lit "NEGATIVE".
Definition NEUTRAL : str := lit "NEUTRAL".

(** [r.sentiment === label] *)
Definition hasSentiment (label : str) (r : AnalysisResult) : bool :=
  match sentiment r with
  | Some s => str_eqb s label
  | None => false
  end.

(** [csvResults.filter(r => r.sentiment === label).length] *)
Definition sentimentCount (label : str) (results : list AnalysisResult)
  : nat :=
  length (filter (hasSentiment label) results).

(** The own properties of [modelMap]. *)
Definition modelMap : list (str * str) :=
  [(lit "distilbert-base-uncased-finetuned-sst-2-english", lit "DistilBERT");
   (lit "cardiffnlp/twitter-roberta-base-sentiment-latest",
    lit "RoBERTa Twitter");
   (lit "nlptown/bert-base-multilingual-uncased-sentiment",
    lit "BERT Multilingual");
   (lit "finiteautomata/bertweet-base-sentiment-analysis", lit "BERTweet");
   (lit "ProsusAI/finbert", lit "FinBERT");
   (lit "microsoft/DialoGPT-medium", lit "DialoGPT")].

(** The properties that an object literal inherits from [Object.prototype]:
    read through [modelMap], each gives a function or an object. *)
Definition inheritedNames : list str :=
  map lit ["constructor"; "hasOwnProperty"; "isPrototypeOf";
           "propertyIsEnumerable"; "toLocaleString"; "toString"; "valueOf";
           "__defineGetter__"; "__defineSetter__"; "__lookupGetter__";
           "__lookupSetter__"; "__proto__"]%string.

Fixpoint ownProperty (key : str) (m : list (str * str)) : option str :=
  match m with
  | [] => None
  | (k, v) :: m' => if str_eqb key k then Some v else ownProperty key m'
  end.

(** What [getModelDisplayName] returns: a string, or the member of
    [Object.prototype] of that name. *)
Inductive DisplayName : Type :=
| Shown (name : str)
| Inherited (key : str).

(** [array.pop()] of an array that is not empty. *)
Definition pop (l : list str) : str := last l [].

Definition getModelDisplayName (modelName : str) : DisplayName :=
  let lastPart := pop (split SLASH modelName) in
  match ownProperty modelName modelMap with
  | Some name => if truthy name then Shown name else Shown lastPart
  | None =>
      if arrayIncludes inheritedNames modelName then Inherited modelName
      else Shown lastPart
  end.

(** The calls of a run that failed, from row [i] on. *)
Fixpoint failedCalls
         (analyzeSentiment : nat -> str -> str -> completion AnalysisResult)
         (model : str) (i : nat) (rest : list str) : nat :=
  match rest with
  | [] => 0
  | text :: rest' =>
      match analyzeSentiment i text model with
      | Return _ => 0
      | Throw _ => 1
      end + failedCalls analyzeSentiment model (S i) rest'
  end.

End Display.

(** ** Shapes of strings *)

Module Shapes.
Import JS.

(** A matcher whose matches are made of characters of the class [q]. *)
Definition matchesWithin (q : ascii -> bool) (m : str -> option nat) : Prop :=
  forall s n, m s = Some n -> forallb q (firstn n s) = true.

(** The last character of [s], if any, is outside the class [p]. *)
Fixpoint endsOutside (p : ascii -> bool) (s : str) : bool :=
  match s with
  | [] => true
  | c :: s' => match s' with [] => negb (p c) | _ :: _ => endsOutside p s' end
  end.

(** A text that survives [fixCSVFormat] and a new [parseCSV]: not empty,
    and free of commas, line feeds and double quotes. *)
Definition cleanText (t : str) : Prop :=
  t <> [] /\ ~ In COMMA t /\ ~ In LF t /\ ~ In DQUOTE t.

(** [l'] is [l], or [l] with a carriage return after it. *)
Definition upToCR (l l' : str) : Prop := l' = l \/ l' = l ++ [CR].

(** A carriage return after every piece but the last. *)
Fixpoint addCR (pieces : list str) : list str :=
  match pieces with
  | [] => []
  | w :: ws => match ws with [] => [w] | _ :: _ => (w ++ [CR]) :: addCR ws end
  end.

End Shapes.

Module PageSamples.
Import JS Csv Analyzer Samples Component Page.

Definition sampleFile : File :=
  {| name := lit "reviews.csv"; loaded := looseHeaderSample |}.

(** The page after [sampleFile] was chosen and its batch analyzed. *)
Definition analyzedPage : Page :=
  onState (handleAnalyzeCSV failingSecond)
          (handleFileUpload (Some sampleFile) initialPage).

End PageSamples.

(** * Properties *)

Unset Implicit Arguments.

(** ** Strings and arrays *)

Module JSFacts.
Import JS.

Lemma str_eqb_eq (a b : str) : str_eqb a b = true <-> a = b.
Proof.
  revert b; induction a as [|x a IH]; intros [|y b]; simpl;
    try (split; congruence).
  rewrite andb_true_iff, Ascii.eqb_eq, IH.
  split; [intros [-> ->]; reflexivity | intros H; inversion H; auto].
Qed.

Lemma split_not_nil sep s : split sep s <> [].
Proof.
  destruct s as [|c s]; simpl; [discriminate|].
  destruct (Ascii.eqb c sep); [discriminate|].
  destruct (split sep s); discriminate.
Qed.

Lemma in_consHead c l piece x :
  In piece (consHead c l) -> In x piece ->
  x = c \/ exists piece', In piece' l /\ In x piece'.
Proof.
  destruct l as [|w ws]; simpl.
  - intros [<-|[]] [<-|[]]; auto.
  - intros [<-|Hin] Hx.
    + destruct Hx as [<-|Hx]; [auto|right; exists w; auto].
    + right; exists piece; auto.
Qed.

(** The pieces of a split are made of characters of the string. *)
Lemma in_split sep s piece x :
  In piece (split sep s) -> In x piece -> In x s.
Proof.
  revert piece; induction s as [|c s IH]; simpl; intros piece.
  - intros [<-|[]] [].
  - destruct (Ascii.eqb c sep).
    + intros [<-|Hin] Hx; [destruct Hx|right; eauto].
    + intros Hin Hx.
      destruct (in_consHead _ _ _ _ Hin Hx) as [->|(p' & Hp' & Hx')];
        [left; reflexivity|right; eauto].
Qed.

Lemma dropWhile_all p s :
  forallb p s = true -> dropWhile p s = [].
Proof.
  induction s as [|c s IH]; simpl; [reflexivity|].
  destruct (p c); simpl; [assumption|discriminate].
Qed.

Lemma trim_all_white s : forallb isWhiteSpace s = true -> trim s = [].
Proof.
  intros H; unfold trim, trimStart, trimEnd.
  rewrite (dropWhile_all _ _ H); reflexivity.
Qed.

Lemma truthy_not_nil s : truthy s = true <-> s <> [].
Proof. destruct s; simpl; split; congruence. Qed.

Lemma removeQuotes_no_quote s : ~ In DQUOTE (removeQuotes s).
Proof.
  unfold removeQuotes; intros H; apply filter_In in H as [_ H].
  rewrite (proj2 (Ascii.eqb_eq _ _) eq_refl) in H; discriminate.
Qed.

Lemma splitLoop_not_nil m fresh skip s : splitLoop m fresh skip s <> [].
Proof.
  revert fresh skip; induction s as [|c s IH]; intros fresh skip;
    cbn [splitLoop]; [discriminate|].
  destruct skip as [|k]; [|apply IH].
  destruct (m (c :: s)) as [[|n]|]; try discriminate;
    [destruct fresh; [|discriminate]|];
    (pose proof (IH false 0%nat) as H;
     destruct (splitLoop m false 0 s); [congruence|discriminate]).
Qed.

Lemma length_consHead c l : l <> [] -> length (consHead c l) = length l.
Proof. destruct l; [congruence|reflexivity]. Qed.

(** A split gives at most one piece more than the string has characters. *)
Lemma splitLoop_length m fresh skip s :
  (length (splitLoop m fresh skip s) <= S (length s))%nat.
Proof.
  revert fresh skip; induction s as [|c s IH]; intros fresh skip;
    cbn [splitLoop length]; [lia|].
  destruct skip as [|k]; [|specialize (IH true k); lia].
  pose proof (IH false 0%nat) as H0.
  pose proof (length_consHead c _ (splitLoop_not_nil m false 0 s)) as Hc.
  destruct (m (c :: s)) as [[|n]|].
  - destruct fresh; cbn [length]; rewrite Hc; lia.
  - specialize (IH true n); cbn [length]; lia.
  - rewrite Hc; lia.
Qed.

Lemma splitRegExp_length m s :
  (length (splitRegExp m s) <= S (length s))%nat.
Proof.
  unfold splitRegExp; destruct s as [|c s].
  - destruct (m []); cbn; lia.
  - apply splitLoop_length.
Qed.

Lemma splitRegExp_plus_not_nil p s : splitRegExp (matchPlus p) s <> [].
Proof.
  unfold splitRegExp; destruct s as [|c s]; [discriminate|].
  apply splitLoop_not_nil.
Qed.

End JSFacts.

(** ** Numbers *)

Module NumFacts.
Import Num.
Open Scope Z_scope.

(** [rne n d] is within one half of [n / d]. *)
Lemma rne_bounds n d :
  0 < d -> - d <= 2 * d * rne n d - 2 * n <= d.
Proof.
  intros Hd; unfold rne.
  pose proof (Z.div_mod n d ltac:(lia)) as E.
  pose proof (Z.mod_pos_bound n d Hd) as B.
  destruct (Z.compare_spec (2 * (n mod d)) d) as [C|C|C].
  - destruct (Z.even (n / d)); nia.
  - nia.
  - nia.
Qed.

Lemma rne_le n d k : 0 < d -> n <= k * d -> rne n d <= k.
Proof. intros Hd H; pose proof (rne_bounds n d Hd); nia. Qed.

Lemma rne_ge n d k : 0 < d -> k * d <= n -> k <= rne n d.
Proof. intros Hd H; pose proof (rne_bounds n d Hd); nia. Qed.

Lemma rne_exact d k : 0 < d -> rne (k * d) d = k.
Proof.
  intros Hd; apply Z.le_antisymm; [apply rne_le|apply rne_ge]; lia.
Qed.

(** [rne] sees the quotient, not the fraction it is written as. *)
Lemma rne_scale c n d : 0 < c -> 0 < d -> rne (c * n) (c * d) = rne n d.
Proof.
  intros Hc Hd; unfold rne.
  rewrite Z.div_mul_cancel_l by lia.
  rewrite Z.mul_mod_distr_l by lia.
  replace (2 * (c * (n mod d))) with (c * (2 * (n mod d))) by ring.
  assert (E : (c * (2 * (n mod d)) ?= c * d) = (2 * (n mod d) ?= d)).
  { destruct (Z.compare_spec (2 * (n mod d)) d) as [C|C|C].
    - rewrite C; apply Z.compare_refl.
    - apply Z.compare_lt_iff; nia.
    - apply Z.compare_gt_iff; nia. }
  rewrite E; reflexivity.
Qed.

(** [gePow2] over a common scale [2 ^ K]. *)
Lemma gePow2_scaled n d e K :
  - K <= e <= K ->
  gePow2 n d e = true <-> d * 2 ^ (K + e) <= n * 2 ^ K.
Proof.
  intros HK; unfold gePow2; rewrite Z.leb_le.
  destruct (Z.le_gt_cases 0 e) as [He|He].
  - rewrite (Z.max_r 0 e), (Z.max_l 0 (- e)) by lia.
    rewrite Z.pow_add_r by lia.
    assert (0 < 2 ^ K) by (apply Z.pow_pos_nonneg; lia).
    change (2 ^ 0) with 1; split; intros; nia.
  - rewrite (Z.max_l 0 e), (Z.max_r 0 (- e)) by lia.
    replace (2 ^ K) with (2 ^ (K + e) * 2 ^ (- e))
      by (rewrite <- Z.pow_add_r by lia; f_equal; lia).
    assert (0 < 2 ^ (K + e)) by (apply Z.pow_pos_nonneg; lia).
    change (2 ^ 0) with 1; split; intros; nia.
Qed.

(** The exponent [e] with [2 ^ e <= n / d < 2 ^ (e + 1)] is what
    [floorLog2] finds. *)
Lemma floorLog2_unique n d e :
  0 < n -> 0 < d ->
  gePow2 n d e = true -> gePow2 n d (e + 1) = false ->
  floorLog2 n d = e.
Proof.
  intros Hn Hd Hge Hlt.
  pose proof (Z.log2_spec n Hn) as [Hn1 Hn2].
  pose proof (Z.log2_spec d Hd) as [Hd1 Hd2].
  pose proof (Z.log2_nonneg n) as Ha.
  pose proof (Z.log2_nonneg d) as Hb.
  set (a := Z.log2 n) in *; set (b := Z.log2 d) in *.
  set (K := Z.abs e + 1).
  assert (Hge' : d * 2 ^ (K + e) <= n * 2 ^ K)
    by (apply (gePow2_scaled n d e K); [unfold K; lia|exact Hge]).
  assert (Hlt' : n * 2 ^ K < d * 2 ^ (K + (e + 1))).
  { apply Z.lt_nge; intros H.
    apply (gePow2_scaled n d (e + 1) K) in H; [|unfold K; lia].
    congruence. }
  assert (HK : 0 < 2 ^ K) by (apply Z.pow_pos_nonneg; unfold K; lia).
  assert (HKe : 0 < 2 ^ (K + e)) by (apply Z.pow_pos_nonneg; unfold K; lia).
  assert (HKe1 : 0 < 2 ^ (K + (e + 1)))
    by (apply Z.pow_pos_nonneg; unfold K; lia).
  assert (Hup : e <= a - b).
  { assert (H : 2 ^ (b + (K + e)) < 2 ^ (Z.succ a + K)).
    { rewrite (Z.pow_add_r 2 b (K + e)), (Z.pow_add_r 2 (Z.succ a) K)
        by (unfold K; lia).
      nia. }
    apply Z.pow_lt_mono_r_iff in H; unfold K in *; lia. }
  assert (Hlow : a - b - 1 <= e).
  { assert (H : 2 ^ (a + K) < 2 ^ (Z.succ b + (K + (e + 1)))).
    { rewrite (Z.pow_add_r 2 a K), (Z.pow_add_r 2 (Z.succ b) (K + (e + 1)))
        by (unfold K; lia).
      nia. }
    apply Z.pow_lt_mono_r_iff in H; unfold K in *; lia. }
  unfold floorLog2; fold a b.
  destruct (Z.eq_dec e (a - b)) as [E|E].
  - rewrite <- E, Hge; reflexivity.
  - replace (a - b) with (e + 1) by lia.
    rewrite Hlt; lia.
Qed.

(** ** The quotient of a majority count by the total, times one hundred *)

Lemma div_same p :
  0 < p ->
  div (ofZ p) (ofZ p) = Finite {| mant := 2 ^ 52; expo := -52 |}.
Proof.
  intros Hp; unfold div, ofZ, isZero; cbn [mant expo].
  rewrite (proj2 (Z.eqb_neq p 0)) by lia.
  change (2 ^ Z.max 0 (0 - 0)) with 1; change (2 ^ Z.max 0 (- (0 - 0))) with 1.
  rewrite !Z.mul_1_r; unfold roundRatio.
  rewrite (proj2 (Z.eqb_neq p 0)) by lia.
  rewrite (floorLog2_unique p p 0 Hp Hp).
  - change (2 ^ Z.max 0 (- (0 - 52))) with (2 ^ 52).
    change (2 ^ Z.max 0 (0 - 52)) with 1.
    rewrite Z.mul_1_r, (Z.mul_comm p), rne_exact by exact Hp; reflexivity.
  - unfold gePow2; apply Z.leb_le; reflexivity.
  - unfold gePow2; apply Z.leb_gt.
    change (2 ^ Z.max 0 (0 + 1)) with 2; change (2 ^ Z.max 0 (- (0 + 1))) with 1.
    lia.
Qed.

Lemma div_majority p t :
  0 < p -> p < t -> t < 2 * p ->
  div (ofZ p) (ofZ t)
  = Finite {| mant := rne (p * 2 ^ 53) t; expo := -53 |}.
Proof.
  intros Hp Hpt Htp; unfold div, ofZ, isZero; cbn [mant expo].
  rewrite (proj2 (Z.eqb_neq t 0)) by lia.
  change (2 ^ Z.max 0 (0 - 0)) with 1; change (2 ^ Z.max 0 (- (0 - 0))) with 1.
  rewrite !Z.mul_1_r; unfold roundRatio.
  rewrite (proj2 (Z.eqb_neq p 0)) by lia.
  rewrite (floorLog2_unique p t (-1)); try lia.
  - change (2 ^ Z.max 0 (- (-1 - 52))) with (2 ^ 53).
    change (2 ^ Z.max 0 (-1 - 52)) with 1.
    rewrite Z.mul_1_r; reflexivity.
  - unfold gePow2; apply Z.leb_le.
    change (2 ^ Z.max 0 (-1)) with 1; change (2 ^ Z.max 0 (- -1)) with 2.
    lia.
  - unfold gePow2; apply Z.leb_gt.
    change (2 ^ Z.max 0 (-1 + 1)) with 1;
      change (2 ^ Z.max 0 (- (-1 + 1))) with 1.
    lia.
Qed.

Lemma round_mul_hundred M :
  2 ^ 52 <= M <= 2 ^ 53 ->
  round (mul (Finite {| mant := M; expo := -53 |}) (ofZ 100))
  = ofZ (hundredTimes M).
Proof.
  intros HM; unfold mul, ofZ at 1; cbn [mant expo].
  change (2 ^ Z.max 0 (-53 + 0)) with 1.
  change (2 ^ Z.max 0 (- (-53 + 0))) with (2 ^ 53).
  replace (M * 100 * 1) with (100 * M) by ring.
  unfold roundRatio, hundredTimes.
  rewrite (proj2 (Z.eqb_neq (100 * M) 0)) by lia.
  destruct (Z.ltb_spec (100 * M) (2 ^ 59)) as [H|H].
  - rewrite (floorLog2_unique (100 * M) (2 ^ 53) 5); try lia.
    + reflexivity.
    + unfold gePow2; apply Z.leb_le.
      change (2 ^ 53 * 2 ^ Z.max 0 5) with (2 ^ 58).
      change (2 ^ Z.max 0 (- 5)) with 1; lia.
    + unfold gePow2; apply Z.leb_gt.
      change (2 ^ 53 * 2 ^ Z.max 0 (5 + 1)) with (2 ^ 59).
      change (2 ^ Z.max 0 (- (5 + 1))) with 1; lia.
  - rewrite (floorLog2_unique (100 * M) (2 ^ 53) 6); try lia.
    + reflexivity.
    + unfold gePow2; apply Z.leb_le.
      change (2 ^ 53 * 2 ^ Z.max 0 6) with (2 ^ 59).
      change (2 ^ Z.max 0 (- 6)) with 1; lia.
    + unfold gePow2; apply Z.leb_gt.
      change (2 ^ 53 * 2 ^ Z.max 0 (6 + 1)) with (2 ^ 60).
      change (2 ^ Z.max 0 (- (6 + 1))) with 1; lia.
Qed.

Lemma mant_majority_bounds p t :
  0 < p -> p < t -> t < 2 * p ->
  2 ^ 52 <= rne (p * 2 ^ 53) t <= 2 ^ 53.
Proof.
  intros Hp Hpt Htp; split; [apply rne_ge|apply rne_le]; lia.
Qed.

Lemma rne_hundred_low M :
  rne (100 * M * 2 ^ 47) (2 ^ 53) = rne (100 * M) 64.
Proof.
  replace (100 * M * 2 ^ 47) with (2 ^ 47 * (100 * M)) by ring.
  change (2 ^ 53) with (2 ^ 47 * 64).
  apply rne_scale; lia.
Qed.

Lemma rne_hundred_high M :
  rne (100 * M * 2 ^ 46) (2 ^ 53) = rne (100 * M) 128.
Proof.
  replace (100 * M * 2 ^ 46) with (2 ^ 46 * (100 * M)) by ring.
  change (2 ^ 53) with (2 ^ 46 * 128).
  apply rne_scale; lia.
Qed.

Lemma hundredTimes_bounds M :
  2 ^ 52 <= M <= 2 ^ 53 -> 50 <= hundredTimes M <= 100.
Proof.
  intros HM; unfold hundredTimes.
  destruct (Z.ltb_spec (100 * M) (2 ^ 59)) as [H|H].
  - rewrite rne_hundred_low.
    pose proof (rne_bounds (100 * M) 64 ltac:(lia)) as B.
    split.
    + apply Z.div_le_lower_bound; lia.
    + apply Z.lt_succ_r, Z.div_lt_upper_bound; lia.
  - rewrite rne_hundred_high.
    pose proof (rne_bounds (100 * M) 128 ltac:(lia)) as B.
    split.
    + apply Z.div_le_lower_bound; lia.
    + apply Z.lt_succ_r, Z.div_lt_upper_bound; lia.
Qed.


Lemma exactPercentage_spec p t :
  0 < t ->
  (2 * exactPercentage p t - 1) * t <= 200 * p
  /\ 200 * p < (2 * exactPercentage p t + 1) * t.
Proof.
  intros Ht; unfold exactPercentage.
  pose proof (Z.div_mod (200 * p + t) (2 * t) ltac:(lia)) as E.
  pose proof (Z.mod_pos_bound (200 * p + t) (2 * t) ltac:(lia)) as B.
  nia.
Qed.

(** Away from the halves the two roundings of the code do not move the
    result across a half: the code's percentage is the exact one. *)
Lemma hundredTimes_exact p t :
  0 < p -> p < t -> t < 2 * p -> t < 2 ^ 45 ->
  (forall j, 200 * p <> (2 * j + 1) * t) ->
  hundredTimes (rne (p * 2 ^ 53) t) = exactPercentage p t.
Proof.
  intros Hp Hpt Htp Hsmall Hhalf.
  pose proof (exactPercentage_spec p t ltac:(lia)) as [Hlo Hhi].
  pose proof (Hhalf (exactPercentage p t - 1)) as Hne.
  set (k := exactPercentage p t) in *.
  assert (Hlo' : (2 * k - 1) * t + 1 <= 200 * p) by lia.
  assert (Hhi' : 200 * p + 1 <= (2 * k + 1) * t) by lia.
  pose proof (rne_bounds (p * 2 ^ 53) t ltac:(lia)) as BM.
  set (M := rne (p * 2 ^ 53) t) in *.
  unfold hundredTimes.
  destruct (Z.ltb_spec (100 * M) (2 ^ 59)) as [H|H].
  - rewrite rne_hundred_low.
    pose proof (rne_bounds (100 * M) 64 ltac:(lia)) as B.
    set (M' := rne (100 * M) 64) in *.
    assert (L1 : 0 <= (2 * 64 * M' - 2 * (100 * M) + 64) * t)
      by (apply Z.mul_nonneg_nonneg; lia).
    assert (L2 : 0 <= (64 - (2 * 64 * M' - 2 * (100 * M))) * t)
      by (apply Z.mul_nonneg_nonneg; lia).
    assert (G1 : (2 * k - 1) * 2 ^ 46 * t < M' * t) by lia.
    assert (G2 : M' * t < (2 * k + 1) * 2 ^ 46 * t) by lia.
    apply Z.mul_lt_mono_pos_r in G1, G2; try lia.
    apply Z.le_antisymm.
    + apply Z.lt_succ_r, Z.div_lt_upper_bound; lia.
    + apply Z.div_le_lower_bound; lia.
  - rewrite rne_hundred_high.
    pose proof (rne_bounds (100 * M) 128 ltac:(lia)) as B.
    set (M' := rne (100 * M) 128) in *.
    assert (L1 : 0 <= (2 * 128 * M' - 2 * (100 * M) + 128) * t)
      by (apply Z.mul_nonneg_nonneg; lia).
    assert (L2 : 0 <= (128 - (2 * 128 * M' - 2 * (100 * M))) * t)
      by (apply Z.mul_nonneg_nonneg; lia).
    assert (G1 : (2 * k - 1) * 2 ^ 45 * t < M' * t) by lia.
    assert (G2 : M' * t < (2 * k + 1) * 2 ^ 45 * t) by lia.
    apply Z.mul_lt_mono_pos_r in G1, G2; try lia.
    apply Z.le_antisymm.
    + apply Z.lt_succ_r, Z.div_lt_upper_bound; lia.
    + apply Z.div_le_lower_bound; lia.
Qed.


Lemma halfCase_table :
  forallb (fun i => let j := Z.of_nat i in
                    (Z.max (halfCase j) 60 =? Z.max (j + 1) 60)
                    && ((halfCase j =? j + 1)
                        || (j =? 56) || (j =? 57)))
          (seq 50 50) = true.
Proof. vm_compute; reflexivity. Qed.

Lemma rne_half p t j :
  0 < t -> 200 * p = (2 * j + 1) * t ->
  rne (p * 2 ^ 53) t = rne ((2 * j + 1) * 2 ^ 53) 200.
Proof.
  intros Ht E.
  rewrite <- (rne_scale 200 (p * 2 ^ 53) t) by lia.
  rewrite <- (rne_scale t ((2 * j + 1) * 2 ^ 53) 200) by lia.
  f_equal; [|ring].
  replace (200 * (p * 2 ^ 53)) with (200 * p * 2 ^ 53) by ring.
  rewrite E; ring.
Qed.

Lemma hundredTimes_half p t j :
  0 < p -> p < t -> t < 2 * p ->
  200 * p = (2 * j + 1) * t ->
  exactPercentage p t = j + 1 /\
  Z.max (hundredTimes (rne (p * 2 ^ 53) t)) 60 = Z.max (j + 1) 60.
Proof.
  intros Hp Hpt Htp E.
  assert (Hj : 50 <= j <= 99) by nia.
  split.
  - unfold exactPercentage.
    replace (200 * p + t) with ((j + 1) * (2 * t)) by lia.
    apply Z.div_mul; lia.
  - rewrite (rne_half p t j) by lia.
    assert (Hin : In (Z.to_nat j) (seq 50 50)) by (apply in_seq; lia).
    apply (proj1 (forallb_forall _ _) halfCase_table) in Hin.
    cbv beta zeta in Hin; rewrite Z2Nat.id in Hin by lia.
    apply andb_true_iff in Hin as [Hin _].
    apply Z.eqb_eq in Hin; exact Hin.
Qed.

(** The confidence the code computes for a majority of [p] among [t]
    keyword hits, [t] below 2^45. *)
Lemma majority_confidence p t :
  0 < p -> p <= t -> t < 2 * p -> t < 2 ^ 45 ->
  exists k,
    round (mul (div (ofZ p) (ofZ t)) (ofZ 100)) = ofZ k /\
    50 <= k <= 100 /\
    Z.max k 60 = Z.max (exactPercentage p t) 60.
Proof.
  intros Hp Hpt Htp Hsmall.
  destruct (Z.eq_dec p t) as [->|Hne].
  - exists 100; rewrite div_same by exact Hp.
    split; [reflexivity|split; [lia|]].
    unfold exactPercentage.
    replace (200 * t + t) with (100 * (2 * t) + t) by ring.
    rewrite Z.div_add_l, Z.div_small by lia; reflexivity.
  - assert (Hlt : p < t) by lia.
    pose proof (mant_majority_bounds p t Hp Hlt Htp) as HM.
    exists (hundredTimes (rne (p * 2 ^ 53) t)).
    rewrite div_majority, round_mul_hundred by assumption.
    split; [reflexivity|split; [apply hundredTimes_bounds; exact HM|]].
    destruct (Z.eq_dec ((200 * p) mod t) 0) as [Hdiv|Hdiv].
    + pose proof (Z.div_mod (200 * p) t ltac:(lia)) as E.
      rewrite Hdiv, Z.add_0_r in E.
      destruct (Z.odd ((200 * p) / t)) eqn:Hodd.
      * apply Z.odd_spec in Hodd as [j Hj].
        assert (E' : 200 * p = (2 * j + 1) * t) by (rewrite E, Hj; ring).
        destruct (hundredTimes_half p t j Hp Hlt Htp E') as [-> ->].
        reflexivity.
      * rewrite hundredTimes_exact; trivial.
        intros j Hj.
        assert (Hq : (200 * p) / t = 2 * j + 1)
          by (rewrite Hj; apply Z.div_mul; lia).
        rewrite Hq, (Z.add_comm (2 * j) 1), Z.odd_add_mul_2 in Hodd.
        discriminate.
    + rewrite hundredTimes_exact; trivial.
      intros j Hj; apply Hdiv.
      rewrite Hj; apply Z.mod_mul; lia.
Qed.

(** The same without the bound on [t]: the result is an integer between 50
    and 100. *)
Lemma majority_confidence_bounds p t :
  0 < p -> p <= t -> t < 2 * p ->
  exists k,
    round (mul (div (ofZ p) (ofZ t)) (ofZ 100)) = ofZ k /\ 50 <= k <= 100.
Proof.
  intros Hp Hpt Htp.
  destruct (Z.eq_dec p t) as [->|Hne].
  - exists 100; rewrite div_same by exact Hp; split; [reflexivity|lia].
  - assert (Hlt : p < t) by lia.
    pose proof (mant_majority_bounds p t Hp Hlt Htp) as HM.
    exists (hundredTimes (rne (p * 2 ^ 53) t)).
    rewrite div_majority, round_mul_hundred by assumption.
    split; [reflexivity|apply hundredTimes_bounds; exact HM].
Qed.

Lemma max_ofZ k : max (ofZ k) (ofZ 60) = ofZ (Z.max k 60).
Proof.
  unfold max, ofZ, leDouble; cbn [mant expo].
  change (2 ^ Z.max 0 (0 - 0)) with 1; rewrite !Z.mul_1_r.
  destruct (Z.leb_spec k 60) as [H|H].
  - rewrite Z.max_r by lia; reflexivity.
  - rewrite Z.max_l by lia; reflexivity.
Qed.

End NumFacts.

(** ** The CSV column sniffer *)

Module CsvFacts.
Import JS Csv JSFacts.

Lemma nonBlankLines_notBlank csv line :
  In line (nonBlankLines csv) -> trim line <> [].
Proof.
  unfold nonBlankLines; intros H; apply filter_In in H as [_ H].
  apply truthy_not_nil; exact H.
Qed.

Lemma nonBlankLines_nil csv :
  nonBlankLines csv = [] <->
  Forall (fun line => trim line = []) (split LF csv).
Proof.
  unfold nonBlankLines; induction (split LF csv) as [|l ls IH]; simpl.
  - split; auto.
  - unfold notBlank at 1; destruct (trim l) eqn:E; simpl.
    + rewrite IH; split; [intros; constructor; auto|].
      intros H; inversion H; auto.
    + split; [discriminate|intros H; inversion H; congruence].
Qed.

(** What [parseCSV] answers when at least two lines are not blank, in terms
    of [startIndex], [selectedHeaders] and [textColumn]. *)
Lemma parseCSV_multi csv firstLine secondLine rest :
  nonBlankLines csv = firstLine :: secondLine :: rest ->
  parseCSV csv =
  Return {| headers := selectedHeaders firstLine;
            texts := extract (textColumn firstLine)
                       (skipn (startIndex firstLine)
                              (firstLine :: secondLine :: rest));
            totalRows := length (extract (textColumn firstLine)
                       (skipn (startIndex firstLine)
                              (firstLine :: secondLine :: rest)));
            hasHeaders := hasHeaderIndicators firstLine;
            warning :=
              match findIndex isTextHeader (selectedHeaders firstLine) with
              | None => Some noTextColumnWarning
              | Some _ => None
              end |}.
Proof.
  intros H; unfold parseCSV; rewrite H.
  unfold textColumn, selectedHeaders, startIndex.
  destruct (findIndex isTextHeader _); reflexivity.
Qed.

Lemma rowText_Some column line v :
  rowText column line = Some v ->
  nth_error (cells line) column = Some v /\ v <> [].
Proof.
  unfold rowText; destruct (truthy (trim line)); [|discriminate].
  destruct (nth_error (cells line) column) as [w|]; [|discriminate].
  destruct (truthy w) eqn:T; simpl; [|discriminate].
  destruct (0 <? length w)%nat; [|discriminate].
  intros [= <-]; split; [reflexivity|apply truthy_not_nil; exact T].
Qed.

Lemma rowText_skipped column line :
  (length (cells line) < column)%nat \/
  nth_error (cells line) column = Some [] ->
  rowText column line = None.
Proof.
  unfold rowText; intros [H|H]; destruct (truthy (trim line)); trivial.
  - assert (E : nth_error (cells line) column = None)
      by (apply nth_error_None; lia).
    rewrite E; reflexivity.
  - rewrite H; reflexivity.
Qed.

Lemma extract_app column rows rows' :
  extract column (rows ++ rows') =
  extract column rows ++ extract column rows'.
Proof.
  induction rows as [|r rows IH]; simpl; [reflexivity|].
  destruct (rowText column r); simpl; rewrite IH; reflexivity.
Qed.

Lemma in_extract column rows v :
  In v (extract column rows) ->
  exists line, In line rows /\ rowText column line = Some v.
Proof.
  induction rows as [|r rows IH]; simpl; [intros []|].
  destruct (rowText column r) as [w|] eqn:E.
  - intros [<-|H]; [exists r; auto|].
    destruct (IH H) as (l & Hl & Hv); exists l; auto.
  - intros H; destruct (IH H) as (l & Hl & Hv); exists l; auto.
Qed.

Lemma cell_no_quote line column v :
  nth_error (cells line) column = Some v -> ~ In DQUOTE v.
Proof.
  unfold cells; intros H; apply nth_error_In in H.
  apply in_map_iff in H as (raw & <- & _).
  apply removeQuotes_no_quote.
Qed.

(** [extract] gives nothing exactly when every row is skipped. *)
Lemma extract_nil_iff column rows :
  extract column rows = [] <->
  Forall (fun row => rowText column row = None) rows.
Proof.
  induction rows as [|r rows IH]; simpl.
  - split; auto.
  - destruct (rowText column r) eqn:E.
    + split; [discriminate|intros H; inversion H; congruence].
    + rewrite IH; split; [intros; constructor; auto|].
      intros H; inversion H; auto.
Qed.

End CsvFacts.

(** ** The model on concrete inputs *)

Module Examples.
Import JS Csv Analyzer TextAnalysisService Samples.

Example trim_sample : trim (lit "  a b " ++ [LF]) = lit "a b".
Proof. reflexivity. Qed.

Example split_sample : split COMMA (lit "a,,b") = [lit "a"; []; lit "b"].
Proof. reflexivity. Qed.

Example lower_sample : toLowerCase (lit "My_TEXT 1") = lit "my_text 1".
Proof. reflexivity. Qed.

(** A separator at either end leaves an empty token there. *)
Example tokens_sample :
  tokens (lit " Hello,  World! ") = [[]; lit "hello"; lit "world"; []].
Proof. reflexivity. Qed.

(** [\n\s*\n] takes the longest stretch of white space that ends in a line
    feed. *)
Example paragraphs_sample :
  splitRegExp matchBlankLine
    (lit "a" ++ LF :: lit " " ++ LF :: lit "  " ++ LF :: lit " b" ++ LF :: lit "c")
  = [lit "a"; lit " b" ++ LF :: lit "c"].
Proof. reflexivity. Qed.

(** [1 / 3] is [0x15555555555555 * 2 ^ -54]. *)
Example one_third :
  Num.div (Num.ofZ 1) (Num.ofZ 3)
  = Num.Finite {| Num.mant := 6004799503160661; Num.expo := -54 |}.
Proof. vm_compute; reflexivity. Qed.

(** [(113 / 200) * 100] is [56.49999999999999] in binary64: the code rounds
    it to 56, where the exact [56.5] rounds to 57. *)
Example percentage_113_of_200 :
  Num.mul (Num.div (Num.ofZ 113) (Num.ofZ 200)) (Num.ofZ 100)
  = Num.Finite {| Num.mant := 7951668092076031; Num.expo := -47 |} /\
  percentage 113 200 = Num.ofZ 56 /\
  Num.exactPercentage 113 200 = 57%Z.
Proof. repeat split; vm_compute; reflexivity. Qed.

Example percentage_5_of_8 :
  percentage 5 8 = Num.ofZ 63 /\ Num.exactPercentage 5 8 = 63%Z.
Proof. split; vm_compute; reflexivity. Qed.

Example analyzeSentiment_sample :
  analyzeSentiment mixedReview
  = {| label := lit "POSITIVE"; confidence := Num.ofZ 67;
       method := ruleBased |}.
Proof. vm_compute; reflexivity. Qed.

(** Seven words in three sentences: [Math.round((7 / 3) * 10) / 10] is the
    double nearest to 2.3. *)
Example analyzeText_sample :
  analyzeText (lit "Hello world. This is  a test!  Yes")
  = Return {| wordCount := 7;
              characterCount := 34;
              characterCountNoSpaces := 26;
              sentenceCount := 3;
              paragraphCount := 1;
              averageWordsPerSentence :=
                Num.Finite {| Num.mant := 5179139571476070;
                              Num.expo := -51 |};
              TextAnalysisService.sentiment := neutral |}.
Proof. vm_compute; reflexivity. Qed.

Example analyzeText_blank :
  analyzeText (lit "   ") = Throw (lit "Please enter some text to analyze").
Proof. reflexivity. Qed.

Example batch_sample :
  csvResults (handleAnalyzeCSV failingSecond (loaded threeTexts))
  = Some [positiveResult (lit "one") (selectedModel (loaded threeTexts));
          errorResult (lit "two") (lit "Analysis failed")
                      (selectedModel (loaded threeTexts));
          positiveResult (lit "three") (selectedModel (loaded threeTexts))].
Proof. reflexivity. Qed.

Example number_rendering :
  sampleNumberToString (Num.ofZ 0) = lit "0" /\
  sampleNumberToString (Num.ofZ 100) = lit "100" /\
  sampleNumberToString (Num.Finite {| Num.mant := 3; Num.expo := -2 |})
  = lit "0.75".
Proof. repeat split. Qed.

End Examples.

(** ** The claims on the CSV column sniffer *)

Module CsvSpec.
Import JS Csv JSFacts CsvFacts Samples.


(** C5. On the three lines [text], [apple], [banana], [parseCSV] returns
    with [hasHeaders = true], [texts = [apple; banana]] and
    [totalRows = 2]. *)
Theorem C5_header_sample :
  exists batch,
    parseCSV headerSample = Return batch /\
    hasHeaders batch = true /\
    texts batch = [lit "apple"; lit "banana"] /\
    totalRows batch = 2%nat.
Proof. eexists; repeat split. Qed.

(** C2, as stated, fails: on two lines that are one comma each, [parseCSV]
    returns, without any error, a batch whose [texts] is empty. *)
Lemma C2_empty_texts_without_error :
  parseCSV commaSample =
  Return {| headers := [lit "text"]; texts := []; totalRows := 0;
            hasHeaders := false; warning := None |}.
Proof. reflexivity. Qed.

(** C2, amended.  [parseCSV] throws the empty-file error exactly when no
    line of the input is left after trimming, which includes the empty
    string and white-space-only content, and it throws nothing else.
    When it returns, [totalRows] is the length of [texts]; for an input
    with exactly one non-blank line [texts] is that line, trimmed: its
    length is one; for an input with two non-blank lines or more [texts]
    has one entry for each data row that is not skipped, and it is empty
    exactly when every data row is skipped. *)
Theorem C2_empty_file_error (csv : str) :
  (parseCSV csv = Throw emptyFileMessage <->
   Forall (fun line => trim line = []) (split LF csv)) /\
  (forallb isWhiteSpace csv = true -> parseCSV csv = Throw emptyFileMessage) /\
  (forall message, parseCSV csv = Throw message -> message = emptyFileMessage) /\
  (forall batch, parseCSV csv = Return batch ->
                 totalRows batch = length (texts batch)) /\
  (forall line, nonBlankLines csv = [line] ->
     exists batch, parseCSV csv = Return batch /\
                   texts batch = [trim line] /\ length (texts batch) = 1%nat) /\
  (forall firstLine secondLine rest,
     nonBlankLines csv = firstLine :: secondLine :: rest ->
     let rows := skipn (startIndex firstLine)
                       (firstLine :: secondLine :: rest) in
     exists batch,
       parseCSV csv = Return batch /\
       texts batch = extract (textColumn firstLine) rows /\
       (texts batch = [] <->
        Forall (fun row => rowText (textColumn firstLine) row = None) rows)).
Proof.
  assert (Hthrow : parseCSV csv = Throw emptyFileMessage <->
                   nonBlankLines csv = []).
  { unfold parseCSV.
    destruct (nonBlankLines csv) as [|l1 [|l2 rest]].
    - split; reflexivity.
    - split; discriminate.
    - destruct (findIndex _ _); split; discriminate. }
  split; [rewrite Hthrow; apply nonBlankLines_nil|].
  split.
  { intros Hws; apply Hthrow, nonBlankLines_nil, Forall_forall.
    intros line Hline; apply trim_all_white, forallb_forall.
    intros x Hx; apply (proj1 (forallb_forall _ _) Hws).
    eapply in_split; eassumption. }
  split.
  { unfold parseCSV; intros message.
    destruct (nonBlankLines csv) as [|l1 [|l2 rest]];
      [intros [= <-]; reflexivity|discriminate|].
    destruct (findIndex _ _); discriminate. }
  split.
  { unfold parseCSV; intros batch.
    destruct (nonBlankLines csv) as [|l1 [|l2 rest]];
      [discriminate|intros [= <-]; reflexivity|].
    destruct (findIndex _ _); intros [= <-]; reflexivity. }
  split.
  { intros line H; unfold parseCSV; rewrite H.
    eexists; repeat split. }
  intros firstLine secondLine rest H rows.
  rewrite (parseCSV_multi _ _ _ _ H).
  eexists; split; [reflexivity|split; [reflexivity|]].
  apply extract_nil_iff.
Qed.

Lemma C2_empty_file_error_witness :
  parseCSV [] = Throw emptyFileMessage /\
  parseCSV (lit "  " ++ LF :: lit " ") = Throw emptyFileMessage.
Proof.
  exact (conj (proj1 (proj2 (C2_empty_file_error [])) eq_refl)
              (proj1 (proj2 (C2_empty_file_error (lit "  " ++ LF :: lit " ")))
                     eq_refl)).
Defined.

(** C10, as stated, fails: a single line between double quotes is returned
    as it is, with its double quotes. *)
Lemma C10_single_line_keeps_quotes :
  exists batch,
    parseCSV quotedSample = Return batch /\
    texts batch = [quotedSample] /\
    In DQUOTE quotedSample.
Proof. eexists; repeat split. left; reflexivity. Qed.

(** C10, amended.  Every element of the [texts] that [parseCSV] returns is
    a non-empty string; when two lines or more of the input are not blank
    it contains no double quote, and when only one is, it is that line,
    trimmed, with whatever double quotes the line has. *)
Theorem C10_texts_elements (csv : str) (batch : CsvBatch) (t : str) :
  parseCSV csv = Return batch ->
  In t (texts batch) ->
  t <> [] /\
  (2 <= length (nonBlankLines csv) -> ~ In DQUOTE t)%nat /\
  (forall line, nonBlankLines csv = [line] -> t = trim line).
Proof.
  intros Hparse Hin.
  destruct (nonBlankLines csv) as [|l1 [|l2 rest]] eqn:E.
  - unfold parseCSV in Hparse; rewrite E in Hparse; discriminate.
  - unfold parseCSV in Hparse; rewrite E in Hparse.
    injection Hparse as <-; simpl in Hin; destruct Hin as [<-|[]].
    split; [|split].
    + apply (nonBlankLines_notBlank csv); rewrite E; left; reflexivity.
    + simpl; lia.
    + intros line [= <-]; reflexivity.
  - rewrite (parseCSV_multi _ _ _ _ E) in Hparse.
    injection Hparse as <-; simpl in Hin.
    apply in_extract in Hin as (line & _ & Hrow).
    apply rowText_Some in Hrow as [Hcell Hne].
    split; [exact Hne|split].
    + intros _; eapply cell_no_quote; eassumption.
    + intros line' H; discriminate.
Qed.

Lemma C10_texts_elements_witness :
  lit "apple" <> [] /\ ~ In DQUOTE (lit "apple").
Proof.
  exact (let H := C10_texts_elements headerSample _ (lit "apple")
                    eq_refl (or_introl eq_refl) in
         conj (proj1 H) (proj1 (proj2 H) (le_S _ _ (le_n 2)))).
Defined.

(** C7, as stated, fails: when the first line has no header keyword at all
    (and so no cell of it is a keyword either), every line is data, column 0
    is used, and the batch has no [warning]. *)
Lemma C7_no_keyword_no_warning :
  hasHeaderIndicators (lit "apple,red") = false /\
  findIndex isTextHeader (cells (lit "apple,red")) = None /\
  parseCSV fruitSample =
  Return {| headers := [lit "text"];
            texts := [lit "apple"; lit "banana"];
            totalRows := 2; hasHeaders := false; warning := None |}.
Proof. repeat split. Qed.

(** C7, amended.  Take an input with two non-blank lines or more.  When
    the first line contains a header keyword somewhere, so that it is taken
    as the header row, but none of its cells is a keyword exactly
    (case-insensitive), [parseCSV] takes the texts from column 0 of the
    lines after it and returns a non-empty [warning].  When the first line
    contains no header keyword, [parseCSV] takes the texts from column 0 of
    all the lines, the first included, and returns no [warning]. *)
Theorem C7_column_zero_fallback (csv firstLine secondLine : str)
        (rest : list str) :
  nonBlankLines csv = firstLine :: secondLine :: rest ->
  (hasHeaderIndicators firstLine = true ->
   findIndex isTextHeader (cells firstLine) = None ->
   exists batch message,
     parseCSV csv = Return batch /\
     hasHeaders batch = true /\
     texts batch = extract 0 (secondLine :: rest) /\
     warning batch = Some message /\ message <> []) /\
  (hasHeaderIndicators firstLine = false ->
   exists batch,
     parseCSV csv = Return batch /\
     hasHeaders batch = false /\
     texts batch = extract 0 (firstLine :: secondLine :: rest) /\
     warning batch = None).
Proof.
  intros E; rewrite (parseCSV_multi _ _ _ _ E).
  unfold textColumn, selectedHeaders, startIndex; split.
  - intros -> ->; do 2 eexists; repeat split; discriminate.
  - intros ->; eexists; repeat split.
Qed.

Lemma C7_column_zero_fallback_witness :
  (exists batch message,
     parseCSV looseHeaderSample = Return batch /\
     hasHeaders batch = true /\
     texts batch = extract 0 [lit "hello,1"; lit "world,2"] /\
     warning batch = Some message /\ message <> []) /\
  (exists batch,
     parseCSV fruitSample = Return batch /\
     hasHeaders batch = false /\
     texts batch = extract 0 [lit "apple,red"; lit "banana,yellow"] /\
     warning batch = None).
Proof.
  exact (conj
           (proj1 (C7_column_zero_fallback looseHeaderSample _ _ _ eq_refl)
                  eq_refl eq_refl)
           (proj2 (C7_column_zero_fallback fruitSample _ _ _ eq_refl)
                  eq_refl)).
Defined.

Example loose_header_sample :
  parseCSV looseHeaderSample =
  Return {| headers := [lit "my_text"; lit "label"];
            texts := [lit "hello"; lit "world"];
            totalRows := 2; hasHeaders := true;
            warning := Some noTextColumnWarning |}.
Proof. reflexivity. Qed.

(** C6.  Take an input with two non-blank lines or more: [parseCSV]
    returns.  A data row whose cells are fewer than the index of the
    selected text column, or whose cell at that index is empty, adds nothing
    to [texts]: [texts] is what the rows before it and the rows after it
    give. *)
Theorem C6_short_rows_skipped (csv firstLine secondLine : str)
        (rest before : list str) (row : str) (after : list str) :
  nonBlankLines csv = firstLine :: secondLine :: rest ->
  skipn (startIndex firstLine) (firstLine :: secondLine :: rest)
  = before ++ row :: after ->
  (length (cells row) < textColumn firstLine)%nat \/
  nth_error (cells row) (textColumn firstLine) = Some [] ->
  exists batch,
    parseCSV csv = Return batch /\
    rowText (textColumn firstLine) row = None /\
    texts batch = extract (textColumn firstLine) before
                  ++ extract (textColumn firstLine) after.
Proof.
  intros E Hrows Hrow; rewrite (parseCSV_multi _ _ _ _ E).
  eexists; split; [reflexivity|]; simpl texts.
  pose proof (rowText_skipped _ _ Hrow) as Hnone.
  split; [exact Hnone|].
  rewrite Hrows, extract_app; simpl; rewrite Hnone; reflexivity.
Qed.

Lemma C6_short_rows_skipped_witness :
  exists batch,
    parseCSV shortRowSample = Return batch /\
    rowText 2 (lit "1") = None /\
    texts batch = extract 2 [] ++ extract 2 [lit "2,b,ok"].
Proof.
  exact (C6_short_rows_skipped shortRowSample _ _ _
           [] (lit "1") [lit "2,b,ok"] eq_refl eq_refl
           (or_introl (le_n 2))).
Defined.

Example short_row_sample :
  textColumn (lit "id,n,text") = 2%nat /\
  length (cells (lit "1")) = 1%nat /\
  parseCSV shortRowSample =
  Return {| headers := [lit "id"; lit "n"; lit "text"];
            texts := [lit "ok"];
            totalRows := 1; hasHeaders := true; warning := None |}.
Proof. repeat split. Qed.

End CsvSpec.

(** ** The sequential batch runner *)

Module BatchSpec.
Import JS Csv Analyzer Samples.

Section Runner.

Variable analyzeSentiment : nat -> str -> str -> completion AnalysisResult.


Lemma analyzeRows_results i total rest results st :
  fst (analyzeRows analyzeSentiment i total rest results st)
  = results ++ rowResults analyzeSentiment (selectedModel st) i rest.
Proof.
  revert i results st; induction rest as [|text rest IH];
    intros i results st; simpl.
  - rewrite app_nil_r; reflexivity.
  - rewrite IH; simpl; unfold rowResult.
    destruct (analyzeSentiment i text (selectedModel st));
      rewrite <- app_assoc; reflexivity.
Qed.

Lemma rowResults_length model i rest :
  length (rowResults analyzeSentiment model i rest) = length rest.
Proof.
  revert i; induction rest as [|text rest IH]; intros i; simpl;
    [reflexivity|rewrite IH; reflexivity].
Qed.

Lemma rowResults_nth model i rest k text :
  nth_error rest k = Some text ->
  nth_error (rowResults analyzeSentiment model i rest) k
  = Some (rowResult analyzeSentiment model (i + k) text).
Proof.
  revert i k; induction rest as [|t rest IH]; intros i [|k]; simpl;
    try discriminate.
  - intros [= ->]; rewrite Nat.add_0_r; reflexivity.
  - intros H; rewrite (IH (S i) k H).
    replace (S i + k)%nat with (i + S k)%nat by lia; reflexivity.
Qed.

Lemma handleAnalyzeCSV_results st data :
  csvData st = Some data ->
  texts data <> [] ->
  csvResults (handleAnalyzeCSV analyzeSentiment st)
  = Some (rowResults analyzeSentiment (selectedModel st) 0 (texts data)).
Proof.
  intros Hdata Hne; unfold handleAnalyzeCSV; rewrite Hdata.
  destruct (texts data) as [|t ts] eqn:E; [congruence|].
  change (length (t :: ts) =? 0)%nat with false; cbv iota.
  pose proof (analyzeRows_results 0 (length (t :: ts)) (t :: ts) []
                (setCsvProgress 0 (length (t :: ts))
                                (setIsProcessingCsv true st))) as H.
  destruct (analyzeRows _ _ _ _ _ _) as [results st'].
  simpl fst in H; rewrite H; clear H.
  reflexivity.
Qed.

End Runner.


(** C3, as stated, fails for the list of no texts: the batch that
    [parseCSV] returns for two lines of one comma each has [texts = []], and
    on it the runner stops at its first test and leaves the state as it is:
    no result list is stored. *)
Lemma C3_empty_batch_no_results :
  parseCSV (lit "," ++ LF :: lit ",") = Return emptyBatch /\
  texts emptyBatch = [] /\
  handleAnalyzeCSV refusing (loaded emptyBatch) = loaded emptyBatch /\
  csvResults (handleAnalyzeCSV refusing (loaded emptyBatch)) = None.
Proof. repeat split. Qed.

(** C3, amended.  For every non-empty list of N texts the runner stores a
    result list of length N in the order of the texts: position k holds
    what the backend returned for call k on text k, or, when that call
    failed, the placeholder with [sentiment = ERROR], [confidence = 0], the
    message of the error, the text and the model; a failing row does not
    change what the other rows get.  (For the empty list the runner returns
    at once and stores nothing.) *)
Theorem C3_batch_results
        (analyzeSentiment : nat -> str -> str -> completion AnalysisResult)
        (st : State) (data : CsvBatch) :
  csvData st = Some data ->
  (texts data <> [] ->
   exists results,
     csvResults (handleAnalyzeCSV analyzeSentiment st) = Some results /\
     length results = length (texts data) /\
     forall k text,
       nth_error (texts data) k = Some text ->
       exists r,
         nth_error results k = Some r /\
         match analyzeSentiment k text (selectedModel st) with
         | Return result => r = result
         | Throw message =>
             Analyzer.text r = Some text /\
             sentiment r = Some (lit "ERROR") /\
             confidence r = Some (Num.ofZ 0) /\
             error r = Some message /\
             model_name r = Some (selectedModel st)
         end) /\
  (texts data = [] -> handleAnalyzeCSV analyzeSentiment st = st).
Proof.
  intros Hdata; split.
  - intros Hne.
    exists (rowResults analyzeSentiment (selectedModel st) 0 (texts data)).
    split; [apply handleAnalyzeCSV_results; assumption|].
    split; [apply rowResults_length|].
    intros k text Hk.
    exists (rowResult analyzeSentiment (selectedModel st) k text).
    split; [apply (rowResults_nth analyzeSentiment _ 0 _ k text Hk)|].
    unfold rowResult.
    destruct (analyzeSentiment k text (selectedModel st)); simpl; auto.
  - intros Hnil; unfold handleAnalyzeCSV; rewrite Hdata, Hnil; reflexivity.
Qed.

Lemma C3_batch_results_witness :
  (exists results,
     csvResults (handleAnalyzeCSV failingSecond (loaded threeTexts))
     = Some results /\
     length results = 3%nat /\
     forall k text,
       nth_error [lit "one"; lit "two"; lit "three"] k = Some text ->
       exists r,
         nth_error results k = Some r /\
         match failingSecond k text (selectedModel (loaded threeTexts)) with
         | Return result => r = result
         | Throw message =>
             Analyzer.text r = Some text /\
             sentiment r = Some (lit "ERROR") /\
             confidence r = Some (Num.ofZ 0) /\
             error r = Some message /\
             model_name r = Some (selectedModel (loaded threeTexts))
         end) /\
  handleAnalyzeCSV refusing (loaded emptyBatch) = loaded emptyBatch.
Proof.
  exact (conj
           (proj1 (C3_batch_results failingSecond (loaded threeTexts)
                     threeTexts eq_refl)
                  (fun E => @nil_cons _ (lit "one") _ (eq_sym E)))
           (proj2 (C3_batch_results refusing (loaded emptyBatch)
                     emptyBatch eq_refl)
                  eq_refl)).
Defined.

End BatchSpec.

(** ** Export and re-import *)

Module ExportFacts.
Import JS Csv Analyzer JSFacts CsvFacts.

Lemma split_no_sep sep s : ~ In sep s -> split sep s = [s].
Proof.
  induction s as [|c s IH]; simpl; intros H; [reflexivity|].
  destruct (Ascii.eqb c sep) eqn:E.
  - apply Ascii.eqb_eq in E; subst; exfalso; apply H; left; reflexivity.
  - rewrite IH by (intros Hin; apply H; right; exact Hin); reflexivity.
Qed.

Lemma split_app_sep sep s rest :
  ~ In sep s -> split sep (s ++ sep :: rest) = s :: split sep rest.
Proof.
  induction s as [|c s IH]; simpl; intros H.
  - rewrite (proj2 (Ascii.eqb_eq sep sep) eq_refl); reflexivity.
  - destruct (Ascii.eqb c sep) eqn:E.
    + apply Ascii.eqb_eq in E; subst; exfalso; apply H; left; reflexivity.
    + rewrite IH by (intros Hin; apply H; right; exact Hin); reflexivity.
Qed.

(** Splitting what [join] made gives the pieces back, when no piece holds
    the separator. *)
Lemma split_join sep pieces :
  pieces <> [] ->
  Forall (fun piece => ~ In sep piece) pieces ->
  split sep (join sep pieces) = pieces.
Proof.
  induction pieces as [|w ws IH]; intros Hne Hall; [congruence|].
  inversion Hall as [|? ? Hw Hws]; subst.
  destruct ws as [|w' ws']; [apply split_no_sep; exact Hw|].
  change (join sep (w :: w' :: ws')) with (w ++ sep :: join sep (w' :: ws')).
  rewrite split_app_sep by exact Hw.
  rewrite IH; [reflexivity|discriminate|exact Hws].
Qed.

Lemma in_join sep pieces x :
  In x (join sep pieces) ->
  x = sep \/ exists piece, In piece pieces /\ In x piece.
Proof.
  induction pieces as [|w ws IH]; [intros []|].
  destruct ws as [|w' ws'].
  - simpl; intros H; right; exists w; auto.
  - change (join sep (w :: w' :: ws'))
      with (w ++ sep :: join sep (w' :: ws')).
    intros H; apply in_app_or in H as [H|[H|H]].
    + right; exists w; split; [left; reflexivity|exact H].
    + left; symmetry; exact H.
    + destruct (IH H) as [->|(piece & Hp & Hx)]; [left; reflexivity|].
      right; exists piece; split; [right; exact Hp|exact Hx].
Qed.

Lemma dropWhile_head p c s : p c = false -> dropWhile p (c :: s) = c :: s.
Proof. intros H; simpl; rewrite H; reflexivity. Qed.

(** [trim] leaves a string alone that starts and ends with characters
    that are not white space. *)
Lemma trim_bracketed c s d :
  isWhiteSpace c = false -> isWhiteSpace d = false ->
  trim (c :: s ++ [d]) = c :: s ++ [d].
Proof.
  intros Hc Hd; unfold trim, trimStart, trimEnd.
  rewrite (dropWhile_head _ _ _ Hc).
  assert (E : rev (c :: s ++ [d]) = d :: rev (c :: s)).
  { change (c :: s ++ [d]) with ((c :: s) ++ [d]).
    rewrite rev_app_distr; reflexivity. }
  rewrite E, (dropWhile_head _ _ _ Hd), <- E.
  apply rev_involutive.
Qed.

Lemma trim_head_not_nil c s : isWhiteSpace c = false -> trim (c :: s) <> [].
Proof.
  intros Hc; unfold trim, trimStart, trimEnd.
  rewrite (dropWhile_head _ _ _ Hc); simpl rev.
  intros H; apply (f_equal (@rev ascii)) in H.
  rewrite rev_involutive in H; simpl in H.
  induction (rev s) as [|x xs IH]; simpl in H.
  - rewrite Hc in H; discriminate.
  - destruct (isWhiteSpace x); [auto|discriminate].
Qed.

Lemma removeQuotes_doubleQuotes s :
  removeQuotes (doubleQuotes s) = removeQuotes s.
Proof.
  unfold removeQuotes, doubleQuotes; induction s as [|c s IH]; simpl;
    [reflexivity|].
  destruct (Ascii.eqb c DQUOTE) eqn:E; simpl.
  - exact IH.
  - rewrite E; simpl; rewrite IH; reflexivity.
Qed.

Lemma removeQuotes_app s s' :
  removeQuotes (s ++ s') = removeQuotes s ++ removeQuotes s'.
Proof. apply filter_app. Qed.

Lemma removeQuotes_quoteCell cell :
  removeQuotes (quoteCell cell) = removeQuotes cell.
Proof.
  unfold quoteCell.
  change (DQUOTE :: doubleQuotes cell ++ [DQUOTE])
    with ([DQUOTE] ++ doubleQuotes cell ++ [DQUOTE]).
  rewrite !removeQuotes_app, removeQuotes_doubleQuotes.
  simpl; apply app_nil_r.
Qed.

Lemma removeQuotes_id s : ~ In DQUOTE s -> removeQuotes s = s.
Proof.
  unfold removeQuotes; induction s as [|c s IH]; simpl; intros H;
    [reflexivity|].
  destruct (Ascii.eqb c DQUOTE) eqn:E.
  - apply Ascii.eqb_eq in E; exfalso; apply H; left; exact E.
  - simpl; rewrite IH by (intros Hin; apply H; right; exact Hin).
    reflexivity.
Qed.

Lemma in_doubleQuotes x s : In x (doubleQuotes s) -> x = DQUOTE \/ In x s.
Proof.
  unfold doubleQuotes; intros H; apply in_flat_map in H as (c & Hc & Hx).
  destruct (Ascii.eqb c DQUOTE); simpl in Hx.
  - left; destruct Hx as [<-|[<-|[]]]; reflexivity.
  - right; destruct Hx as [<-|[]]; exact Hc.
Qed.

Lemma in_quoteCell x cell : In x (quoteCell cell) -> x = DQUOTE \/ In x cell.
Proof.
  unfold quoteCell; intros [<-|H]; [left; reflexivity|].
  apply in_app_or in H as [H|[<-|[]]];
    [apply in_doubleQuotes; exact H|left; reflexivity].
Qed.

Lemma trim_quoteCell cell : trim (quoteCell cell) = quoteCell cell.
Proof. apply trim_bracketed; reflexivity. Qed.

Lemma quoteCell_notBlank cell rest : notBlank (quoteCell cell ++ rest) = true.
Proof.
  unfold notBlank; apply truthy_not_nil.
  apply (trim_head_not_nil DQUOTE); reflexivity.
Qed.

End ExportFacts.

Module ExportSpec.
Import JS Csv Analyzer JSFacts CsvFacts ExportFacts Samples.

Section RoundTrip.

Variable numberToString : Num.number -> str.


Lemma generateResultsCSV_lines results :
  generateResultsCSV numberToString results
  = join LF (headerLine :: map (resultLine numberToString) results).
Proof.
  unfold generateResultsCSV, headerLine, resultLine.
  simpl map; rewrite map_map; reflexivity.
Qed.

Lemma exportLine_cons cell cell' cells :
  exportLine (cell :: cell' :: cells)
  = quoteCell cell ++ COMMA :: exportLine (cell' :: cells).
Proof. reflexivity. Qed.

Lemma resultLine_head r :
  exists rest,
    resultLine numberToString r
    = quoteCell (exportedText r) ++ COMMA :: rest.
Proof. eexists; unfold resultLine, exportRow; apply exportLine_cons. Qed.

Lemma exportLine_no_LF row :
  Forall (fun cell => ~ In LF cell) row -> ~ In LF (exportLine row).
Proof.
  intros Hrow Hin; unfold exportLine in Hin.
  apply in_join in Hin as [E|(piece & Hpiece & Hin)]; [discriminate E|].
  apply in_map_iff in Hpiece as (cell & <- & Hcell).
  apply in_quoteCell in Hin as [E|Hin]; [discriminate E|].
  exact (proj1 (Forall_forall _ _) Hrow cell Hcell Hin).
Qed.

Lemma resultLine_no_LF r :
  exportable numberToString r -> ~ In LF (resultLine numberToString r).
Proof.
  intros (_ & Htext & _ & Hrest); apply exportLine_no_LF.
  unfold exportRow in *; simpl tl in Hrest.
  constructor; assumption.
Qed.

Lemma headerLine_no_LF : ~ In LF headerLine.
Proof.
  assert (H : forallb (fun c => negb (Ascii.eqb c LF)) headerLine = true)
    by reflexivity.
  intros Hin; apply (proj1 (forallb_forall _ _) H) in Hin.
  rewrite (proj2 (Ascii.eqb_eq LF LF) eq_refl) in Hin; discriminate.
Qed.

Lemma resultLine_notBlank r : notBlank (resultLine numberToString r) = true.
Proof.
  destruct (resultLine_head r) as [rest ->]; apply quoteCell_notBlank.
Qed.

Lemma filter_all (A : Type) (p : A -> bool) (l : list A) :
  Forall (fun x => p x = true) l -> filter p l = l.
Proof.
  induction 1 as [|x l Hx _ IH]; simpl; [reflexivity|].
  rewrite Hx, IH; reflexivity.
Qed.

Lemma nonBlankLines_generated results :
  Forall (exportable numberToString) results ->
  nonBlankLines (generateResultsCSV numberToString results)
  = headerLine :: map (resultLine numberToString) results.
Proof.
  intros Hall; unfold nonBlankLines.
  rewrite generateResultsCSV_lines, split_join.
  - apply filter_all; constructor; [reflexivity|].
    apply Forall_forall; intros line Hline.
    apply in_map_iff in Hline as (r & <- & _).
    apply resultLine_notBlank.
  - discriminate.
  - constructor; [exact headerLine_no_LF|].
    apply Forall_forall; intros line Hline.
    apply in_map_iff in Hline as (r & <- & Hr).
    apply resultLine_no_LF.
    exact (proj1 (Forall_forall _ _) Hall r Hr).
Qed.

Lemma rowText_resultLine r :
  exportable numberToString r ->
  rowText 0 (resultLine numberToString r)
  = Some (removeQuotes (exportedText r)).
Proof.
  intros (Hcomma & _ & Hne & _); unfold rowText.
  fold (notBlank (resultLine numberToString r)); rewrite resultLine_notBlank.
  destruct (resultLine_head r) as [rest ->].
  unfold cells; rewrite split_app_sep.
  - simpl nth_error.
    rewrite trim_quoteCell, removeQuotes_quoteCell.
    destruct (removeQuotes (exportedText r)); [congruence|reflexivity].
  - intros Hin; apply in_quoteCell in Hin as [E|Hin];
      [discriminate E|exact (Hcomma Hin)].
Qed.

Lemma extract_resultLines results :
  Forall (exportable numberToString) results ->
  extract 0 (map (resultLine numberToString) results)
  = map (fun r => removeQuotes (exportedText r)) results.
Proof.
  induction 1 as [|r rs Hr _ IH]; simpl; [reflexivity|].
  rewrite (rowText_resultLine r Hr), IH; reflexivity.
Qed.

End RoundTrip.


Lemma hasChar_false c s : negb (hasChar c s) = true -> ~ In c s.
Proof.
  unfold hasChar; intros H Hin.
  assert (E : existsb (Ascii.eqb c) s = true).
  { apply existsb_exists; exists c; split; [exact Hin|].
    apply Ascii.eqb_eq; reflexivity. }
  rewrite E in H; discriminate.
Qed.

Lemma exportableb_sound numberToString results :
  forallb (exportableb numberToString) results = true ->
  Forall (exportable numberToString) results.
Proof.
  intros H; apply Forall_forall; intros r Hr.
  apply (proj1 (forallb_forall _ _) H) in Hr.
  unfold exportableb in Hr.
  apply andb_true_iff in Hr as [Hr Hrest].
  apply andb_true_iff in Hr as [Hr Hquotes].
  apply andb_true_iff in Hr as [Hcomma Hlf].
  repeat split.
  - apply hasChar_false; exact Hcomma.
  - apply hasChar_false; exact Hlf.
  - apply truthy_not_nil; exact Hquotes.
  - apply Forall_forall; intros cell Hcell.
    apply hasChar_false.
    exact (proj1 (forallb_forall _ _) Hrest cell Hcell).
Qed.

(** C8, as stated, fails.  A text with a comma comes back cut at the
    comma, and the export of the empty result list, which is the header
    line alone, comes back as one text: that line. *)
Lemma C8_comma_and_empty_list_not_recovered :
  text commaResult = Some (lit "Good, but slow") /\
  (exists batch,
     parseCSV (generateResultsCSV sampleNumberToString [commaResult])
     = Return batch /\
     texts batch = [lit "Good"]) /\
  (exists batch,
     parseCSV (generateResultsCSV sampleNumberToString [])
     = Return batch /\
     texts batch = [headerLine] /\ length (texts batch) = 1%nat).
Proof.
  split; [reflexivity|split]; eexists;
    (split; [vm_compute; reflexivity|]); vm_compute; auto.
Qed.

(** C8, amended.  Take a non-empty list of results in which every text has
    no comma and no line feed and is more than double quotes, and no other
    exported cell has a line feed.  Exporting it with [generateResultsCSV]
    and parsing the export with [parseCSV] returns a batch with headers
    whose [texts] are the texts of the results, in their order, with their
    double quotes deleted; so texts without double quotes come back
    unchanged. *)
Theorem C8_export_then_parse (numberToString : Num.number -> str)
        (results : list AnalysisResult) :
  results <> [] ->
  Forall (exportable numberToString) results ->
  exists batch,
    parseCSV (generateResultsCSV numberToString results) = Return batch /\
    hasHeaders batch = true /\
    warning batch = None /\
    texts batch = map (fun r => removeQuotes (exportedText r)) results /\
    (Forall (fun r => ~ In DQUOTE (exportedText r)) results ->
     texts batch = map exportedText results).
Proof.
  intros Hne Hall.
  pose proof (nonBlankLines_generated numberToString results Hall) as Hlines.
  destruct results as [|r rs]; [congruence|].
  simpl map in Hlines.
  rewrite (parseCSV_multi _ _ _ _ Hlines).
  assert (Hstart : startIndex headerLine = 1%nat) by (vm_compute; reflexivity).
  assert (Hcolumn : textColumn headerLine = 0%nat) by (vm_compute; reflexivity).
  assert (Hhas : hasHeaderIndicators headerLine = true) by (vm_compute; reflexivity).
  assert (Hfind : findIndex isTextHeader (selectedHeaders headerLine)
                  = Some 0%nat) by (vm_compute; reflexivity).
  eexists; split; [reflexivity|].
  cbn [hasHeaders warning texts].
  rewrite Hstart, Hcolumn, Hhas, Hfind.
  change (skipn 1 (headerLine :: resultLine numberToString r
                     :: map (resultLine numberToString) rs))
    with (map (resultLine numberToString) (r :: rs)).
  rewrite (extract_resultLines numberToString (r :: rs) Hall).
  split; [reflexivity|]. split; [reflexivity|]. split; [reflexivity|].
  intros Hquotes; apply map_ext_in; intros x Hx.
  apply removeQuotes_id.
  exact (proj1 (Forall_forall _ _) Hquotes x Hx).
Qed.

Lemma C8_export_then_parse_witness :
  exists batch,
    parseCSV (generateResultsCSV sampleNumberToString plainResults)
    = Return batch /\
    hasHeaders batch = true /\
    warning batch = None /\
    texts batch = map (fun r => removeQuotes (exportedText r)) plainResults /\
    (Forall (fun r => ~ In DQUOTE (exportedText r)) plainResults ->
     texts batch = map exportedText plainResults).
Proof.
  exact (C8_export_then_parse sampleNumberToString plainResults
           (fun E => @nil_cons _ _ _ (eq_sym E))
           (exportableb_sound sampleNumberToString plainResults eq_refl)).
Defined.

Example plain_results_round_trip :
  exists batch,
    parseCSV (generateResultsCSV sampleNumberToString plainResults)
    = Return batch /\
    texts batch = [lit "fine day"; lit "so so"].
Proof. eexists; split; vm_compute; reflexivity. Qed.

End ExportSpec.

(** ** The text analysis service *)

Module ServiceFacts.
Import JS TextAnalysisService JSFacts NumFacts.

Lemma scores_from a b words :
  fold_left scoreWord words (a, b)
  = (a + countIn positiveWords words, b + countIn negativeWords words)%nat.
Proof.
  revert a b; induction words as [|w ws IH]; intros a b.
  - unfold countIn; cbn [fold_left filter length]; f_equal; lia.
  - cbn [fold_left]; unfold scoreWord at 2; rewrite IH.
    unfold countIn; cbn [filter].
    destruct (arrayIncludes positiveWords w);
      destruct (arrayIncludes negativeWords w);
      cbn [length]; f_equal; lia.
Qed.

(** The two counters after the [forEach]: the numbers of words that are in
    each list. *)
Lemma scores_counts words :
  scores words
  = (countIn positiveWords words, countIn negativeWords words).
Proof. unfold scores; rewrite scores_from; reflexivity. Qed.

(** No character of a piece of [s.split(/[class]+/)] is in the class. *)
Lemma splitLoop_plus_pieces p fresh skip s piece c :
  In piece (splitLoop (matchPlus p) fresh skip s) -> In c piece ->
  p c = false.
Proof.
  revert fresh skip piece; induction s as [|x s IH];
    intros fresh skip piece; cbn [splitLoop].
  - intros [<-|[]] [].
  - destruct skip as [|k]; [|apply IH].
    unfold matchPlus; cbn [spanLength].
    destruct (p x) eqn:Hx.
    + intros [<-|Hin] Hc; [destruct Hc|eapply IH; eassumption].
    + intros Hin Hc.
      destruct (in_consHead _ _ _ _ Hin Hc) as [->|(piece' & Hin' & Hc')];
        [exact Hx|eapply IH; eassumption].
Qed.

(** Every token is made of word characters. *)
Lemma tokens_word_chars text token c :
  In token (tokens text) -> In c token -> isWordChar c = true.
Proof.
  unfold tokens, splitRegExp; intros Hin Hc.
  destruct (toLowerCase text) as [|x s].
  - cbn in Hin; destruct Hin as [<-|[]]; destruct Hc.
  - apply (splitLoop_plus_pieces isNonWordChar) with (c := c) in Hin;
      [|exact Hc].
    unfold isNonWordChar in Hin; destruct (isWordChar c);
      [reflexivity|discriminate].
Qed.

Lemma percentage_majority score totalScore :
  (0 < score)%nat -> (score <= totalScore)%nat ->
  (totalScore < 2 * score)%nat ->
  exists k,
    percentage score totalScore = Num.ofZ k /\ (50 <= k <= 100)%Z /\
    (Z.of_nat totalScore < 2 ^ 45 ->
     Z.max k 60
     = Z.max (Num.exactPercentage (Z.of_nat score) (Z.of_nat totalScore))
             60)%Z.
Proof.
  intros Hs Hle Hlt; unfold percentage, Num.ofNat.
  destruct (Z_lt_dec (Z.of_nat totalScore) (2 ^ 45)) as [Hsmall|Hbig].
  - destruct (majority_confidence (Z.of_nat score) (Z.of_nat totalScore))
      as (k & Hk & Hb & Hmax); try lia.
    exists k; auto.
  - destruct (majority_confidence_bounds (Z.of_nat score)
                                         (Z.of_nat totalScore))
      as (k & Hk & Hb); try lia.
    exists k; split; [exact Hk|split; [exact Hb|intros; lia]].
Qed.

Lemma countIn_le wordList words :
  (countIn wordList words <= length words)%nat.
Proof. apply filter_length_le. Qed.

(** The keyword hits of a text are at most twice its length plus two. *)
Lemma keyword_hits_le_length text :
  (countIn positiveWords (tokens text) + countIn negativeWords (tokens text)
   <= 2 * S (length text))%nat.
Proof.
  pose proof (countIn_le positiveWords (tokens text)).
  pose proof (countIn_le negativeWords (tokens text)).
  pose proof (splitRegExp_length (matchPlus isNonWordChar) (toLowerCase text))
    as H1.
  unfold toLowerCase in H1 at 2; rewrite length_map in H1.
  fold (tokens text) in H1; lia.
Qed.

(** The quotient of a positive count by zero, through the rounding to one
    decimal. *)
Lemma average_by_zero words :
  (0 < words)%nat ->
  Num.div (Num.round (Num.mul (Num.div (Num.ofNat words) (Num.ofNat 0))
                              (Num.ofZ 10)))
          (Num.ofZ 10)
  = Num.Infinity.
Proof.
  intros H; unfold Num.ofNat, Num.ofZ, Num.div at 2, Num.isZero.
  cbn [Num.mant]; change (Z.of_nat 0 =? 0)%Z with true; cbv iota.
  rewrite (proj2 (Z.eqb_neq (Z.of_nat words) 0)) by lia.
  reflexivity.
Qed.

(** Whenever [analyzeText] counts no sentence, the average it returns is
    [Infinity]: the word count is never zero. *)
Lemma zero_sentences_infinite_average text analysis :
  analyzeText text = Return analysis ->
  sentenceCount analysis = 0%nat ->
  (0 < wordCount analysis)%nat /\
  averageWordsPerSentence analysis = Num.Infinity.
Proof.
  unfold analyzeText; destruct (negb (truthy (trim text))); [discriminate|].
  intros [= <-]; cbn [sentenceCount wordCount averageWordsPerSentence].
  intros ->.
  assert (Hw : (0 < length (splitRegExp (matchPlus isWhiteSpace) (trim text)))%nat).
  { pose proof (splitRegExp_plus_not_nil isWhiteSpace (trim text)) as H.
    destruct (splitRegExp _ _); [congruence|cbn; lia]. }
  split; [exact Hw|apply average_by_zero; exact Hw].
Qed.

(** The answer of [analyzeSentiment] from the two counts, the percentage in
    exact arithmetic; the counts together stay below 2^45. *)
Lemma sentiment_rule_by_counts (text : str) :
  (Z.of_nat (countIn positiveWords (tokens text)
             + countIn negativeWords (tokens text)) < 2 ^ 45)%Z ->
  analyzeSentiment text
  = let positive := countIn positiveWords (tokens text) in
    let negative := countIn negativeWords (tokens text) in
    if (positive =? negative)%nat then neutral
    else if (negative <? positive)%nat
         then majority (lit "POSITIVE") positive negative
         else majority (lit "NEGATIVE") negative positive.
Proof.
  intros Hsmall.
  unfold analyzeSentiment; rewrite scores_counts; cbv zeta.
  set (positive := countIn positiveWords (tokens text)) in *.
  set (negative := countIn negativeWords (tokens text)) in *.
  destruct (Nat.eqb_spec (positive + negative) 0) as [Hzero|Hzero].
  { assert (E : positive = negative) by lia.
    rewrite (proj2 (Nat.eqb_eq _ _) E); reflexivity. }
  destruct (Nat.ltb_spec negative positive) as [Hpos|Hpos].
  - rewrite (proj2 (Nat.eqb_neq positive negative)) by lia.
    destruct (percentage_majority positive (positive + negative))
      as (k & -> & _ & Hk); try lia.
    rewrite max_ofZ, (Hk Hsmall), Z.max_comm; reflexivity.
  - destruct (Nat.ltb_spec positive negative) as [Hneg|Hneg].
    + rewrite (proj2 (Nat.eqb_neq positive negative)) by lia.
      destruct (percentage_majority negative (positive + negative))
        as (k & -> & _ & Hk); try lia.
      rewrite max_ofZ, (Hk Hsmall), Z.max_comm.
      unfold majority; rewrite (Nat.add_comm negative positive).
      reflexivity.
    + assert (E : positive = negative) by lia.
      rewrite (proj2 (Nat.eqb_eq _ _) E); reflexivity.
Qed.

End ServiceFacts.

Module ServiceSpec.
Import JS TextAnalysisService JSFacts NumFacts ServiceFacts Samples.

(** C1.  Let the positive and the negative count be the numbers of tokens
    of the lower-cased text, split at the runs of non-word characters, that
    are in the list of 20 positive words and in the list of 20 negative
    words.  [analyzeSentiment] returns NEUTRAL with confidence 50 when
    the counts are equal (both zero included), and otherwise the label of
    the larger count with confidence
    [max(60, round(100 * majority / (majority + minority)))], the rounding
    being to the nearest integer, halves up.  The code computes the
    percentage in binary64, and the two agree for every text of fewer than
    2^43 code units, which is every string an engine can hold. *)
Theorem C1_sentiment_rule (text : str) :
  (Z.of_nat (length text) < 2 ^ 43)%Z ->
  length positiveWords = 20%nat /\
  length negativeWords = 20%nat /\
  analyzeSentiment text
  = let positive := countIn positiveWords (tokens text) in
    let negative := countIn negativeWords (tokens text) in
    let rounded (majorityCount minorityCount : nat) : Z :=
      Num.exactPercentage (Z.of_nat majorityCount)
                          (Z.of_nat (majorityCount + minorityCount)) in
    if (positive =? negative)%nat then
      {| label := lit "NEUTRAL"; confidence := Num.ofZ 50;
         method := ruleBased |}
    else if (negative <? positive)%nat then
      {| label := lit "POSITIVE";
         confidence := Num.ofZ (Z.max 60 (rounded positive negative));
         method := ruleBased |}
    else
      {| label := lit "NEGATIVE";
         confidence := Num.ofZ (Z.max 60 (rounded negative positive));
         method := ruleBased |}.
Proof.
  intros Hlength; split; [reflexivity|split; [reflexivity|]].
  apply sentiment_rule_by_counts.
  pose proof (keyword_hits_le_length text); lia.
Qed.

Lemma C1_sentiment_rule_witness :
  length positiveWords = 20%nat /\
  length negativeWords = 20%nat /\
  analyzeSentiment mixedReview
  = {| label := lit "POSITIVE"; confidence := Num.ofZ 67;
       method := ruleBased |}.
Proof. exact (C1_sentiment_rule mixedReview eq_refl). Defined.

(** C4.  For every non-empty text, the confidence that [analyzeSentiment]
    returns is an integer of the interval [50, 100], and the label is one of
    POSITIVE, NEGATIVE and NEUTRAL. *)
Theorem C4_confidence_range (text : str) :
  text <> [] ->
  exists c,
    confidence (analyzeSentiment text) = Num.ofZ c /\
    (50 <= c <= 100)%Z /\
    In (label (analyzeSentiment text))
       [lit "POSITIVE"; lit "NEGATIVE"; lit "NEUTRAL"].
Proof.
  intros _; unfold analyzeSentiment; rewrite scores_counts.
  set (positive := countIn positiveWords (tokens text)).
  set (negative := countIn negativeWords (tokens text)).
  destruct (Nat.eqb_spec (positive + negative) 0) as [Hzero|Hzero].
  { exists 50%Z; cbn; split; [reflexivity|split; [lia|auto]]. }
  destruct (Nat.ltb_spec negative positive) as [Hpos|Hpos].
  - destruct (percentage_majority positive (positive + negative))
      as (k & Hk & Hb & _); try lia.
    exists (Z.max k 60); cbn [confidence label].
    rewrite Hk, max_ofZ; split; [reflexivity|split; [lia|]].
    left; reflexivity.
  - destruct (Nat.ltb_spec positive negative) as [Hneg|Hneg].
    + destruct (percentage_majority negative (positive + negative))
        as (k & Hk & Hb & _); try lia.
      exists (Z.max k 60); cbn [confidence label].
      rewrite Hk, max_ofZ; split; [reflexivity|split; [lia|]].
      right; left; reflexivity.
    + exists 50%Z; cbn; split; [reflexivity|split; [lia|auto]].
Qed.

Lemma C4_confidence_range_witness :
  exists c,
    confidence (analyzeSentiment mixedReview) = Num.ofZ c /\
    (50 <= c <= 100)%Z /\
    In (label (analyzeSentiment mixedReview))
       [lit "POSITIVE"; lit "NEGATIVE"; lit "NEUTRAL"].
Proof.
  exact (C4_confidence_range mixedReview
           (fun E => @nil_cons _ _ _ (eq_sym E))).
Defined.

(** C9.  There is a text that is not white space only, made of the
    characters full stop, exclamation mark and question mark, that
    [analyzeText] accepts and in which it counts no sentence: the average
    is a division by zero, and [averageWordsPerSentence] is [Infinity],
    which is not a finite number. *)
Theorem C9_average_not_finite :
  exists text analysis,
    truthy (trim text) = true /\
    forallb isSentenceEnd text = true /\
    analyzeText text = Return analysis /\
    wordCount analysis = 1%nat /\
    sentenceCount analysis = 0%nat /\
    averageWordsPerSentence analysis = Num.Infinity /\
    Num.isFinite (averageWordsPerSentence analysis) = false.
Proof.
  exists punctuationOnly; eexists.
  split; [reflexivity|split; [reflexivity|]].
  split; [vm_compute; reflexivity|].
  repeat split.
Qed.

End ServiceSpec.

(** ** The text analysis, for every text *)

Module AnalysisSpec.
Import JS TextAnalysisService JSFacts NumFacts ServiceFacts Samples TextParts Shapes.

Lemma concat_consHead c l : concat (consHead c l) = c :: concat l.
Proof. destruct l; reflexivity. Qed.

(** A split at matches made of [q] loses characters of [q] only. *)
Lemma splitLoop_keeps q m fresh skip s :
  matchesWithin q m ->
  forallb q (firstn skip s) = true ->
  filter (fun c => negb (q c)) (concat (splitLoop m fresh skip s))
  = filter (fun c => negb (q c)) s.
Proof.
  intros Hm; revert fresh skip; induction s as [|c s IH]; intros fresh skip.
  - reflexivity.
  - cbn [splitLoop]; destruct skip as [|k].
    + intros _.
      assert (Hcons : filter (fun c => negb (q c))
                        (concat (consHead c (splitLoop m false 0 s)))
                      = filter (fun c => negb (q c)) (c :: s)).
      { rewrite concat_consHead; cbn [filter].
        rewrite (IH false 0%nat eq_refl); reflexivity. }
      destruct (m (c :: s)) as [[|n]|] eqn:E.
      * destruct fresh; [exact Hcons|exact Hcons].
      * apply Hm in E; cbn [firstn forallb] in E.
        apply andb_true_iff in E as [Hc Hn].
        cbn [concat app filter]; rewrite Hc; cbn [negb].
        apply IH; exact Hn.
      * exact Hcons.
    + cbn [firstn forallb]; intros H.
      apply andb_true_iff in H as [Hc Hk].
      cbn [filter]; rewrite Hc; cbn [negb]; apply IH; exact Hk.
Qed.

Lemma spanLength_firstn p s : forallb p (firstn (spanLength p s) s) = true.
Proof.
  induction s as [|c s IH]; [reflexivity|]; cbn [spanLength].
  destruct (p c) eqn:E; [|reflexivity].
  cbn [firstn forallb]; rewrite E, IH; reflexivity.
Qed.

Lemma matchPlus_within p : matchesWithin p (matchPlus p).
Proof.
  intros s n; unfold matchPlus.
  pose proof (spanLength_firstn p s) as H.
  destruct (spanLength p s); [discriminate|].
  intros [= <-]; exact H.
Qed.

Lemma lastIndexOf_lt c s j : lastIndexOf c s = Some j -> (j < length s)%nat.
Proof.
  revert j; induction s as [|x s IH]; intros j; cbn [lastIndexOf length];
    [discriminate|].
  destruct (lastIndexOf c s) as [i|].
  - intros [= <-]; specialize (IH i eq_refl); lia.
  - destruct (Ascii.eqb x c); [intros [= <-]; lia|discriminate].
Qed.

Lemma forallb_firstn_le (p : ascii -> bool) n k s :
  (k <= n)%nat -> forallb p (firstn n s) = true ->
  forallb p (firstn k s) = true.
Proof.
  revert n k; induction s as [|c s IH]; intros n k Hk.
  - rewrite !firstn_nil; reflexivity.
  - destruct k as [|k]; [reflexivity|].
    destruct n as [|n]; [lia|]; cbn [firstn forallb].
    intros H; apply andb_true_iff in H as [-> H]; cbn.
    apply (IH n k); [lia|exact H].
Qed.

Lemma matchBlankLine_within : matchesWithin isWhiteSpace matchBlankLine.
Proof.
  intros s n; unfold matchBlankLine.
  destruct s as [|c rest]; [discriminate|].
  destruct (Ascii.eqb c LF) eqn:Ec; [|discriminate].
  apply Ascii.eqb_eq in Ec; subst c.
  destruct (lastIndexOf LF _) as [j|] eqn:Ej; [|discriminate].
  intros [= <-].
  apply lastIndexOf_lt in Ej.
  rewrite length_firstn in Ej.
  replace (j + 2)%nat with (S (S j)) by lia.
  change (firstn (S (S j)) (LF :: rest)) with (LF :: firstn (S j) rest).
  cbn [forallb]; change (isWhiteSpace LF) with true; cbn [andb].
  apply (forallb_firstn_le _ (spanLength isWhiteSpace rest)); [lia|].
  apply spanLength_firstn.
Qed.

Lemma splitRegExp_keeps q m s :
  matchesWithin q m ->
  filter (fun c => negb (q c)) (concat (splitRegExp m s))
  = filter (fun c => negb (q c)) s.
Proof.
  intros Hm; unfold splitRegExp; destruct s as [|c s].
  - destruct (m []); reflexivity.
  - apply splitLoop_keeps; [exact Hm|reflexivity].
Qed.

(** ** Trimmed strings *)

Lemma dropWhile_head_outside p s c r :
  dropWhile p s = c :: r -> p c = false.
Proof.
  induction s as [|x s IH]; cbn [dropWhile]; [discriminate|].
  destruct (p x) eqn:E; [exact IH|intros [= <- _]; exact E].
Qed.

Lemma filter_dropWhile p s :
  filter (fun c => negb (p c)) (dropWhile p s) = filter (fun c => negb (p c)) s.
Proof.
  induction s as [|x s IH]; [reflexivity|]; cbn [dropWhile].
  destruct (p x) eqn:E; [|reflexivity].
  cbn [filter]; rewrite E; exact IH.
Qed.

Lemma dropWhile_app_outside p l c :
  p c = false -> dropWhile p (l ++ [c]) = dropWhile p l ++ [c].
Proof.
  intros Hc; induction l as [|x l IH]; cbn [dropWhile app].
  - rewrite Hc; reflexivity.
  - destruct (p x); [exact IH|reflexivity].
Qed.

Lemma endsOutside_app p l c : endsOutside p (l ++ [c]) = negb (p c).
Proof.
  induction l as [|x l IH]; [reflexivity|].
  cbn [app endsOutside]; rewrite IH.
  destruct (l ++ [c]) eqn:E; [destruct l; discriminate|reflexivity].
Qed.

(** [trim] removes white space only. *)
Lemma withoutSpaces_trim s : withoutSpaces (trim s) = withoutSpaces s.
Proof.
  unfold withoutSpaces, trim, trimEnd, trimStart.
  rewrite filter_rev, filter_dropWhile, filter_rev, rev_involutive.
  apply filter_dropWhile.
Qed.

(** A trimmed string that is not empty starts and ends with characters that
    are not white space. *)
Lemma trim_ends s c r :
  trim s = c :: r ->
  isWhiteSpace c = false /\ endsOutside isWhiteSpace (c :: r) = true.
Proof.
  unfold trim, trimEnd, trimStart; intros H.
  destruct (dropWhile isWhiteSpace s) as [|x t] eqn:E.
  - cbn in H; discriminate.
  - pose proof (dropWhile_head_outside _ _ _ _ E) as Hx.
    cbn [rev] in H; rewrite dropWhile_app_outside in H by exact Hx.
    rewrite rev_app_distr in H; cbn [rev app] in H.
    injection H as <- Hr; split; [exact Hx|].
    destruct (dropWhile isWhiteSpace (rev t)) as [|y u] eqn:Eu.
    + cbn in Hr; subst r; cbn; rewrite Hx; reflexivity.
    + pose proof (dropWhile_head_outside _ _ _ _ Eu) as Hy.
      subst r; cbn [rev].
      change (x :: rev u ++ [y]) with ((x :: rev u) ++ [y]).
      rewrite endsOutside_app, Hy; reflexivity.
Qed.

Lemma trim_nil_iff s : trim s = [] <-> withoutSpaces s = [].
Proof.
  rewrite <- withoutSpaces_trim; split; [intros ->; reflexivity|].
  destruct (trim s) as [|c r] eqn:E; [reflexivity|].
  destruct (trim_ends _ _ _ E) as [Hc _].
  unfold withoutSpaces; cbn [filter]; rewrite Hc; discriminate.
Qed.

(** ** Pieces of a split at [[class]+] *)

Lemma splitLoop_pieces_nonempty p s :
  forall fresh skip,
    skip = 0%nat \/ skip = spanLength p s ->
    endsOutside p s = true ->
    (fresh = true -> skip = 0%nat -> exists c r, s = c :: r /\ p c = false) ->
    (fresh = true ->
     Forall (fun w => w <> []) (splitLoop (matchPlus p) fresh skip s)) /\
    Forall (fun w => w <> []) (tl (splitLoop (matchPlus p) fresh skip s)).
Proof.
  induction s as [|c s IH]; intros fresh skip Hskip Hend Hfresh.
  - cbn [splitLoop tl]; split; [|constructor].
    intros ->; destruct Hskip as [->| ->];
      destruct (Hfresh eq_refl eq_refl) as (? & ? & ? & _); discriminate.
  - assert (Htail : p c = true ->
                    endsOutside p s = true /\
                    (spanLength p s = 0%nat ->
                     exists c' r, s = c' :: r /\ p c' = false)).
    { intros Hc; cbn [endsOutside] in Hend.
      destruct s as [|c' r]; [rewrite Hc in Hend; discriminate|].
      split; [exact Hend|].
      cbn [spanLength]; destruct (p c') eqn:Hc'; [discriminate|].
      intros _; exists c', r; auto. }
    cbn [splitLoop]; destruct skip as [|k].
    + assert (Hm : matchPlus p (c :: s)
                   = if p c then Some (S (spanLength p s)) else None)
        by (unfold matchPlus; cbn [spanLength]; destruct (p c); reflexivity).
      rewrite Hm; clear Hm.
      destruct (p c) eqn:Hc.
      * destruct (Htail eq_refl) as [Hend' Hhead].
        destruct (IH true (spanLength p s) (or_intror eq_refl) Hend'
                     (fun _ => Hhead)) as [Hall _].
        split.
        -- intros ->; destruct (Hfresh eq_refl eq_refl) as (? & ? & [= <- _] & E).
           congruence.
        -- cbn [tl]; exact (Hall eq_refl).
      * assert (Hend' : endsOutside p s = true).
        { cbn [endsOutside] in Hend; destruct s; [reflexivity|exact Hend]. }
        assert (Hno : false = true -> 0%nat = 0%nat ->
                      exists c' r, s = c' :: r /\ p c' = false)
          by discriminate.
        destruct (IH false 0%nat (or_introl eq_refl) Hend' Hno) as [_ Htl].
        pose proof (splitLoop_not_nil (matchPlus p) false 0 s) as Hne.
        destruct (splitLoop (matchPlus p) false 0 s) as [|w ws];
          [congruence|].
        cbn [consHead tl] in *; split; [intros _; constructor|];
          [discriminate|exact Htl|exact Htl].
    + destruct Hskip as [Hskip|Hskip]; [discriminate|].
      cbn [spanLength] in Hskip; destruct (p c) eqn:Hc; [|discriminate].
      injection Hskip as ->.
      destruct (Htail eq_refl) as [Hend' Hhead].
      destruct (IH true (spanLength p s) (or_intror eq_refl) Hend'
                   (fun _ => Hhead)) as [Hall _].
      split; [intros _; exact (Hall eq_refl)|].
      specialize (Hall eq_refl).
      destruct (splitLoop _ _ _ _); [constructor|inversion Hall; assumption].
Qed.

(** ** What [analyzeText] counts *)

Lemma countNonBlank_le pieces :
  (countNonBlank pieces <= length (withoutSpaces (concat pieces)))%nat.
Proof.
  unfold countNonBlank, withoutSpaces.
  induction pieces as [|w ws IH]; [cbn; lia|].
  cbn [filter concat]; rewrite filter_app, length_app.
  destruct (0 <? length (trim w))%nat eqn:E; [|lia].
  cbn [length]; apply Nat.ltb_lt in E.
  assert (Hne : withoutSpaces w <> []).
  { intros H; apply trim_nil_iff in H; rewrite H in E; cbn in E; lia. }
  unfold withoutSpaces in Hne.
  destruct (filter _ w); [congruence|cbn [length]; lia].
Qed.

Lemma countNonBlank_pos pieces :
  withoutSpaces (concat pieces) <> [] -> (1 <= countNonBlank pieces)%nat.
Proof.
  unfold countNonBlank, withoutSpaces.
  induction pieces as [|w ws IH]; [cbn; congruence|].
  cbn [filter concat]; rewrite filter_app.
  destruct (0 <? length (trim w))%nat eqn:E; [cbn [length]; lia|].
  apply Nat.ltb_ge in E.
  assert (Hw : withoutSpaces w = []).
  { apply trim_nil_iff; destruct (trim w); [reflexivity|cbn in E; lia]. }
  unfold withoutSpaces in Hw; rewrite Hw; exact IH.
Qed.

Lemma textWords_facts text :
  trim text <> [] ->
  Forall (fun w => w <> [] /\ forallb (fun c => negb (isWhiteSpace c)) w = true)
         (textWords text) /\
  concat (textWords text) = withoutSpaces text.
Proof.
  intros Hne; unfold textWords.
  destruct (trim text) as [|c r] eqn:E; [congruence|].
  destruct (trim_ends _ _ _ E) as [Hc Hend].
  assert (Hpieces :
            Forall (fun w => w <> [] /\
                             forallb (fun c => negb (isWhiteSpace c)) w = true)
                   (splitRegExp (matchPlus isWhiteSpace) (c :: r))).
  { apply Forall_forall; intros w Hw; split.
    - destruct (splitLoop_pieces_nonempty isWhiteSpace (c :: r) true 0%nat
                  (or_introl eq_refl) Hend
                  (fun _ _ => ex_intro _ c (ex_intro _ r (conj eq_refl Hc))))
        as [Hall _].
      exact (proj1 (Forall_forall _ _) (Hall eq_refl) w Hw).
    - apply forallb_forall; intros x Hx.
      rewrite (splitLoop_plus_pieces isWhiteSpace true 0 (c :: r) w x Hw Hx).
      reflexivity. }
  split; [exact Hpieces|].
  rewrite <- (withoutSpaces_trim text), E.
  unfold withoutSpaces at 1.
  rewrite <- (splitRegExp_keeps isWhiteSpace (matchPlus isWhiteSpace) (c :: r)
                (matchPlus_within isWhiteSpace)).
  symmetry; apply forallb_filter_id.
  apply forallb_forall; intros x Hx.
  apply in_concat in Hx as (w & Hw & Hx).
  apply (proj1 (Forall_forall _ _) Hpieces) in Hw as [_ Hw].
  exact (proj1 (forallb_forall _ _) Hw x Hx).
Qed.

Lemma length_le_concat (pieces : list str) :
  Forall (fun w => w <> []) pieces ->
  (length pieces <= length (concat pieces))%nat.
Proof.
  induction 1 as [|w ws Hw _ IH]; [cbn; lia|].
  cbn [concat length]; rewrite length_app.
  destruct w; [congruence|cbn [length]; lia].
Qed.

Lemma withoutSpaces_nil_iff s :
  withoutSpaces s = [] <-> forallb isWhiteSpace s = true.
Proof.
  unfold withoutSpaces; induction s as [|c s IH]; [split; reflexivity|].
  cbn [filter forallb]; destruct (isWhiteSpace c); cbn [negb andb].
  - exact IH.
  - split; discriminate.
Qed.

Lemma truthy_trim_iff text :
  truthy (trim text) = false <-> forallb isWhiteSpace text = true.
Proof.
  rewrite <- withoutSpaces_nil_iff, <- trim_nil_iff.
  destruct (trim text); cbn; split; congruence.
Qed.

(** X1.  [analyzeText] throws exactly for a text that has nothing but white
    space (the empty text included), always with the same message, and
    returns for every other text. *)
Theorem analyzeText_throws_iff_blank (text : str) :
  (analyzeText text = Throw blankMessage <->
   forallb isWhiteSpace text = true) /\
  (forall message, analyzeText text = Throw message -> message = blankMessage) /\
  (forallb isWhiteSpace text = false ->
   exists analysis, analyzeText text = Return analysis).
Proof.
  unfold analyzeText.
  destruct (truthy (trim text)) eqn:E; cbn [negb].
  - assert (Hw : forallb isWhiteSpace text = false).
    { destruct (forallb isWhiteSpace text) eqn:F; [|reflexivity].
      apply truthy_trim_iff in F; congruence. }
    rewrite Hw; split; [split; discriminate|].
    split; [discriminate|intros _; eexists; reflexivity].
  - apply truthy_trim_iff in E; rewrite E.
    split; [split; reflexivity|].
    split; [intros message [= <-]; reflexivity|discriminate].
Qed.

(** X2.  The counts of a returned analysis: there is at least one word and
    one paragraph, no more words and no more paragraphs than characters
    that are not white space, and no more of those than characters. *)
Theorem analyzeText_counts (text : str) (analysis : Analysis) :
  analyzeText text = Return analysis ->
  (1 <= wordCount analysis <= characterCountNoSpaces analysis)%nat /\
  (1 <= paragraphCount analysis <= characterCountNoSpaces analysis)%nat /\
  (characterCountNoSpaces analysis <= characterCount analysis)%nat /\
  characterCount analysis = length text /\
  sentiment analysis = analyzeSentiment text.
Proof.
  unfold analyzeText; destruct (truthy (trim text)) eqn:E; cbn [negb];
    [|discriminate].
  intros [= <-];
    cbn [wordCount characterCountNoSpaces paragraphCount characterCount
         sentiment].
  assert (Hne : trim text <> []) by (apply truthy_not_nil; exact E).
  destruct (textWords_facts text Hne) as [Hwords Hconcat].
  fold (textWords text) (withoutSpaces text) (textParagraphs text).
  assert (Hsome : withoutSpaces text <> [])
    by (intros H; apply trim_nil_iff in H; congruence).
  split; [split|split; [split|split; [|split; reflexivity]]].
  - pose proof (splitRegExp_plus_not_nil isWhiteSpace (trim text)) as H.
    fold (textWords text) in H.
    destruct (textWords text); [congruence|cbn; lia].
  - rewrite <- Hconcat; apply length_le_concat.
    eapply Forall_impl; [|exact Hwords]; intros w [Hw _]; exact Hw.
  - apply countNonBlank_pos; unfold withoutSpaces, textParagraphs.
    rewrite (splitRegExp_keeps isWhiteSpace matchBlankLine text
               matchBlankLine_within).
    exact Hsome.
  - etransitivity; [apply countNonBlank_le|].
    unfold withoutSpaces, textParagraphs.
    rewrite (splitRegExp_keeps isWhiteSpace matchBlankLine text
               matchBlankLine_within).
    reflexivity.
  - unfold withoutSpaces; apply filter_length_le.
Qed.

Lemma analyzeText_counts_witness :
  (1 <= 7 <= 26)%nat /\ (1 <= 1 <= 26)%nat /\ (26 <= 34)%nat /\
  34%nat = length (lit "Hello world. This is  a test!  Yes") /\
  neutral = analyzeSentiment (lit "Hello world. This is  a test!  Yes").
Proof.
  exact (analyzeText_counts (lit "Hello world. This is  a test!  Yes") _
           eq_refl).
Defined.

(** X3.  The words that [analyzeText] counts are non-empty and free of white
    space, and put together they are the text without its white space. *)
Theorem analyzeText_words (text : str) (analysis : Analysis) :
  analyzeText text = Return analysis ->
  wordCount analysis = length (textWords text) /\
  Forall (fun w => w <> [] /\
                   forallb (fun c => negb (isWhiteSpace c)) w = true)
         (textWords text) /\
  concat (textWords text) = withoutSpaces text.
Proof.
  intros H; assert (Hne : trim text <> []).
  { unfold analyzeText in H; destruct (truthy (trim text)) eqn:E;
      [apply truthy_not_nil; exact E|discriminate]. }
  split; [|apply textWords_facts; exact Hne].
  unfold analyzeText in H; destruct (negb (truthy (trim text)));
    [discriminate|].
  injection H as <-; reflexivity.
Qed.

Lemma analyzeText_words_witness :
  2%nat = length (textWords (lit "  so   good ")) /\
  Forall (fun w => w <> [] /\
                   forallb (fun c => negb (isWhiteSpace c)) w = true)
         (textWords (lit "  so   good ")) /\
  concat (textWords (lit "  so   good ")) = withoutSpaces (lit "  so   good ").
Proof.
  exact (analyzeText_words (lit "  so   good ") _ eq_refl).
Defined.

Lemma average_finite words sentences :
  (0 < sentences)%nat ->
  Num.isFinite
    (Num.div (Num.round (Num.mul (Num.div (Num.ofNat words)
                                          (Num.ofNat sentences))
                                 (Num.ofZ 10)))
             (Num.ofZ 10)) = true.
Proof.
  intros Hs.
  assert (Hdiv : exists x, Num.div (Num.ofNat words) (Num.ofNat sentences)
                           = Num.Finite x).
  { unfold Num.div, Num.ofNat, Num.ofZ, Num.isZero; cbn [Num.mant].
    rewrite (proj2 (Z.eqb_neq (Z.of_nat sentences) 0)) by lia.
    eexists; reflexivity. }
  destruct Hdiv as [x ->].
  unfold Num.mul, Num.ofZ at 1, Num.round.
  destruct (0 <=? _)%Z; reflexivity.
Qed.

(** X4.  The average of a returned analysis is [Infinity] exactly when no
    sentence was counted, and a finite number otherwise; it is never
    [NaN]. *)
Theorem average_finite_iff_sentences (text : str) (analysis : Analysis) :
  analyzeText text = Return analysis ->
  (sentenceCount analysis = 0%nat ->
   averageWordsPerSentence analysis = Num.Infinity) /\
  ((0 < sentenceCount analysis)%nat ->
   Num.isFinite (averageWordsPerSentence analysis) = true) /\
  averageWordsPerSentence analysis <> Num.NaN.
Proof.
  intros H.
  assert (Hzero : sentenceCount analysis = 0%nat ->
                  averageWordsPerSentence analysis = Num.Infinity)
    by (intros Hs; apply (zero_sentences_infinite_average text analysis H Hs)).
  assert (Hpos : (0 < sentenceCount analysis)%nat ->
                 Num.isFinite (averageWordsPerSentence analysis) = true).
  { unfold analyzeText in H; destruct (negb (truthy (trim text)));
      [discriminate|].
    injection H as <-; cbn [sentenceCount averageWordsPerSentence].
    intros Hs; apply average_finite; exact Hs. }
  split; [exact Hzero|split; [exact Hpos|]].
  destruct (sentenceCount analysis) as [|n].
  - rewrite (Hzero eq_refl); discriminate.
  - specialize (Hpos ltac:(lia)); intros E; rewrite E in Hpos; discriminate.
Qed.

Lemma average_finite_iff_sentences_witness :
  exists analysis,
    analyzeText mixedReview = Return analysis /\
    sentenceCount analysis = 2%nat /\
    Num.isFinite (averageWordsPerSentence analysis) = true /\
    averageWordsPerSentence analysis
    = Num.Finite {| Num.mant := 2 ^ 52; Num.expo := -50 |}.
Proof.
  eexists; split; [vm_compute; reflexivity|].
  split; [reflexivity|split; [|vm_compute; reflexivity]].
  refine (proj1 (proj2 (average_finite_iff_sentences mixedReview _ _)) _).
  - vm_compute; reflexivity.
  - vm_compute; lia.
Defined.

(** X5.  [analyzeSentiment] answers NEUTRAL with confidence 50 exactly when
    the two counts are equal; otherwise the label is the side of the larger
    count and the confidence is an integer from 60 to 100: it is never
    between 50 and 60, whatever the length of the text. *)
Theorem confidence_fifty_or_sixty_up (text : str) :
  let positive := countIn positiveWords (tokens text) in
  let negative := countIn negativeWords (tokens text) in
  (positive = negative ->
   analyzeSentiment text = neutral) /\
  ((negative < positive)%nat ->
   exists c, (60 <= c <= 100)%Z /\
             analyzeSentiment text
             = {| label := lit "POSITIVE"; confidence := Num.ofZ c;
                  method := ruleBased |}) /\
  ((positive < negative)%nat ->
   exists c, (60 <= c <= 100)%Z /\
             analyzeSentiment text
             = {| label := lit "NEGATIVE"; confidence := Num.ofZ c;
                  method := ruleBased |}).
Proof.
  cbv zeta; unfold analyzeSentiment; rewrite scores_counts.
  set (positive := countIn positiveWords (tokens text)).
  set (negative := countIn negativeWords (tokens text)).
  split; [|split].
  - intros E; destruct (Nat.eqb_spec (positive + negative) 0);
      [reflexivity|].
    rewrite (proj2 (Nat.ltb_ge negative positive)) by lia.
    rewrite (proj2 (Nat.ltb_ge positive negative)) by lia.
    reflexivity.
  - intros H; rewrite (proj2 (Nat.eqb_neq (positive + negative) 0)) by lia.
    rewrite (proj2 (Nat.ltb_lt negative positive) H).
    destruct (percentage_majority positive (positive + negative))
      as (k & -> & Hb & _); try lia.
    exists (Z.max k 60); rewrite max_ofZ; split; [lia|reflexivity].
  - intros H; rewrite (proj2 (Nat.eqb_neq (positive + negative) 0)) by lia.
    rewrite (proj2 (Nat.ltb_ge negative positive)) by lia.
    rewrite (proj2 (Nat.ltb_lt positive negative) H).
    destruct (percentage_majority negative (positive + negative))
      as (k & -> & Hb & _); try lia.
    exists (Z.max k 60); rewrite max_ofZ; split; [lia|reflexivity].
Qed.

End AnalysisSpec.

(** ** The fixed file *)

Module FixSpec.
Import JS Csv Analyzer JSFacts CsvFacts ExportFacts Samples Component Shapes.

(** ** What the texts of a batch are made of *)

Lemma in_dropWhile p s x : In x (dropWhile p s) -> In x s.
Proof.
  induction s as [|c s IH]; cbn [dropWhile]; [intros []|].
  destruct (p c); [right; auto|auto].
Qed.

Lemma in_trim s x : In x (trim s) -> In x s.
Proof.
  unfold trim, trimEnd, trimStart; intros H.
  apply in_rev, in_dropWhile, in_rev, in_dropWhile in H; exact H.
Qed.

Lemma in_removeQuotes s x : In x (removeQuotes s) -> In x s.
Proof. unfold removeQuotes; intros H; apply filter_In in H; tauto. Qed.

(** No piece of a split holds the separator. *)
Lemma split_piece_no_sep sep s piece :
  In piece (split sep s) -> ~ In sep piece.
Proof.
  revert piece; induction s as [|c s IH]; intros piece; cbn [split].
  - intros [<-|[]] [].
  - destruct (Ascii.eqb c sep) eqn:E.
    + intros [<-|H]; [intros []|apply IH; exact H].
    + pose proof (split_not_nil sep s) as Hne.
      destruct (split sep s) as [|w ws]; [congruence|].
      cbn [consHead]; intros [<-|H].
      * intros [->|Hin];
          [rewrite (proj2 (Ascii.eqb_eq sep sep) eq_refl) in E; discriminate|].
        exact (IH w (or_introl eq_refl) Hin).
      * apply IH; right; exact H.
Qed.

Lemma nonBlankLines_no_LF csv line :
  In line (nonBlankLines csv) -> ~ In LF line.
Proof.
  unfold nonBlankLines; intros H; apply filter_In in H as [H _].
  eapply split_piece_no_sep; exact H.
Qed.

Lemma cell_clean line column v :
  nth_error (cells line) column = Some v ->
  ~ In COMMA v /\ (~ In LF line -> ~ In LF v).
Proof.
  unfold cells; intros H; apply nth_error_In in H.
  apply in_map_iff in H as (raw & <- & Hraw); split.
  - intros Hin; apply in_removeQuotes, in_trim in Hin.
    exact (split_piece_no_sep _ _ _ Hraw Hin).
  - intros Hline Hin; apply in_removeQuotes, in_trim in Hin.
    apply Hline; eapply in_split; eassumption.
Qed.

Lemma multi_line_texts_clean csv firstLine secondLine rest batch :
  nonBlankLines csv = firstLine :: secondLine :: rest ->
  parseCSV csv = Return batch ->
  Forall cleanText (texts batch).
Proof.
  intros E Hparse; rewrite (parseCSV_multi _ _ _ _ E) in Hparse.
  injection Hparse as <-; cbn [texts].
  apply Forall_forall; intros t Hin.
  apply in_extract in Hin as (line & Hline & Hrow).
  apply rowText_Some in Hrow as [Hcell Hne].
  assert (Hlf : ~ In LF line).
  { apply (nonBlankLines_no_LF csv); rewrite E.
    unfold startIndex in Hline.
    destruct (hasHeaderIndicators firstLine); cbn [skipn] in Hline;
      [right; exact Hline|exact Hline]. }
  destruct (cell_clean _ _ _ Hcell) as [Hcomma Hlf'].
  repeat split; auto.
  eapply cell_no_quote; exact Hcell.
Qed.

(** ** The repaired file *)

Lemma quoteCell_no_comma t : ~ In COMMA t -> ~ In COMMA (quoteCell t).
Proof.
  intros H Hin; apply in_quoteCell in Hin as [E|Hin];
    [discriminate E|exact (H Hin)].
Qed.

Lemma quoteCell_no_LF t : ~ In LF t -> ~ In LF (quoteCell t).
Proof.
  intros H Hin; apply in_quoteCell in Hin as [E|Hin];
    [discriminate E|exact (H Hin)].
Qed.

Lemma notBlank_quoteCell t : notBlank (quoteCell t) = true.
Proof.
  rewrite <- (app_nil_r (quoteCell t)); apply quoteCell_notBlank.
Qed.

Lemma rowText_quoteCell t :
  cleanText t -> rowText 0 (quoteCell t) = Some t.
Proof.
  intros (Hne & Hcomma & _ & Hquote); unfold rowText.
  fold (notBlank (quoteCell t)); rewrite notBlank_quoteCell.
  unfold cells; rewrite split_no_sep by (apply quoteCell_no_comma; exact Hcomma).
  cbn [map nth_error].
  rewrite trim_quoteCell, removeQuotes_quoteCell, removeQuotes_id
    by exact Hquote.
  destruct t; [congruence|reflexivity].
Qed.

Lemma extract_quoteCells ts :
  Forall cleanText ts -> extract 0 (map quoteCell ts) = ts.
Proof.
  induction 1 as [|t ts Ht _ IH]; [reflexivity|].
  cbn [map extract]; rewrite (rowText_quoteCell t Ht), IH; reflexivity.
Qed.

Lemma parse_fixed ts :
  ts <> [] -> Forall cleanText ts ->
  parseCSV (join LF (lit "text" :: map quoteCell ts))
  = Return {| headers := [lit "text"]; texts := ts;
              totalRows := length ts; hasHeaders := true;
              warning := None |}.
Proof.
  intros Hne Hclean.
  assert (Hlines : nonBlankLines (join LF (lit "text" :: map quoteCell ts))
                   = lit "text" :: map quoteCell ts).
  { unfold nonBlankLines; rewrite split_join.
    - cbn [filter]; change (notBlank (lit "text")) with true; cbv iota.
      f_equal; apply ExportSpec.filter_all, Forall_forall.
      intros line Hline; apply in_map_iff in Hline as (t & <- & _).
      apply notBlank_quoteCell.
    - discriminate.
    - constructor.
      + intros Hin; cbn in Hin; repeat destruct Hin as [Hin|Hin];
          try discriminate Hin; exact Hin.
      + apply Forall_forall; intros line Hline.
        apply in_map_iff in Hline as (t & <- & Ht).
        apply quoteCell_no_LF.
        exact (proj1 (proj2 (proj2 (proj1 (Forall_forall _ _) Hclean t Ht)))). }
  destruct ts as [|t ts']; [congruence|].
  cbn [map] in Hlines |- *; rewrite (parseCSV_multi _ _ _ _ Hlines).
  change (startIndex (lit "text")) with 1%nat.
  change (textColumn (lit "text")) with 0%nat.
  change (hasHeaderIndicators (lit "text")) with true.
  change (selectedHeaders (lit "text")) with [lit "text"].
  change (findIndex isTextHeader [lit "text"]) with (Some 0%nat).
  cbn [skipn].
  change (quoteCell t :: map quoteCell ts') with (map quoteCell (t :: ts')).
  rewrite (extract_quoteCells (t :: ts') Hclean); reflexivity.
Qed.

(** X6.  The file that [fixCSVFormat] offers for a batch read by [parseCSV]
    from two non-blank lines or more is read back by [parseCSV] as the same
    texts under the single header [text], with headers detected and no
    warning, when the batch has a text at all; for a batch without texts the
    file is the header alone, and it is read back as one text, the word
    [text]. *)
Theorem fixCSVFormat_reparsed (csv firstLine secondLine : str)
        (rest : list str) (batch : CsvBatch) (st : State) :
  nonBlankLines csv = firstLine :: secondLine :: rest ->
  parseCSV csv = Return batch ->
  csvData st = Some batch ->
  exists download,
    fixCSVFormat st = Some download /\
    filename download = lit "fixed_texts.csv" /\
    (texts batch <> [] ->
     parseCSV (content download)
     = Return {| headers := [lit "text"]; texts := texts batch;
                 totalRows := totalRows batch; hasHeaders := true;
                 warning := None |}) /\
    (texts batch = [] ->
     parseCSV (content download)
     = Return {| headers := [lit "text"]; texts := [lit "text"];
                 totalRows := 1; hasHeaders := false;
                 warning := None |}).
Proof.
  intros E Hparse Hdata.
  pose proof (multi_line_texts_clean _ _ _ _ _ E Hparse) as Hclean.
  unfold fixCSVFormat; rewrite Hdata; eexists; split; [reflexivity|].
  split; [reflexivity|]; cbn [content]; split.
  - intros Hne; rewrite (parse_fixed _ Hne Hclean).
    rewrite (parseCSV_multi _ _ _ _ E) in Hparse; injection Hparse as <-.
    reflexivity.
  - intros ->; reflexivity.
Qed.

Lemma fixCSVFormat_reparsed_witness :
  exists download,
    fixCSVFormat (loaded
                    {| headers := [lit "text"];
                       texts := [lit "apple"; lit "banana"];
                       totalRows := 2; hasHeaders := true;
                       warning := None |}) = Some download /\
    parseCSV (content download)
    = Return {| headers := [lit "text"];
                texts := [lit "apple"; lit "banana"];
                totalRows := 2; hasHeaders := true; warning := None |}.
Proof.
  exact (match fixCSVFormat_reparsed headerSample _ _ _ _ (loaded _)
                 eq_refl eq_refl eq_refl with
         | ex_intro _ d (conj Hfix (conj _ (conj Hsome _))) =>
             ex_intro _ d
               (conj Hfix (Hsome (fun E => @nil_cons _ _ _ (eq_sym E))))
         end).
Defined.

(** X7.  No text that [parseCSV] returns holds a line feed, and when two
    lines or more are not blank none holds a comma either. *)
Theorem texts_without_separators (csv : str) (batch : CsvBatch) (t : str) :
  parseCSV csv = Return batch ->
  In t (texts batch) ->
  ~ In LF t /\
  ((2 <= length (nonBlankLines csv))%nat -> ~ In COMMA t).
Proof.
  intros Hparse Hin.
  destruct (nonBlankLines csv) as [|l1 [|l2 rest]] eqn:E.
  - unfold parseCSV in Hparse; rewrite E in Hparse; discriminate.
  - unfold parseCSV in Hparse; rewrite E in Hparse.
    injection Hparse as <-; destruct Hin as [<-|[]].
    split; [|cbn; lia].
    intros H; apply in_trim in H.
    apply (nonBlankLines_no_LF csv l1); [rewrite E; left; reflexivity|exact H].
  - pose proof (multi_line_texts_clean _ _ _ _ _ E Hparse) as Hclean.
    apply (proj1 (Forall_forall _ _) Hclean) in Hin
      as (_ & Hcomma & Hlf & _).
    split; [exact Hlf|intros _; exact Hcomma].
Qed.

Lemma texts_without_separators_witness :
  ~ In LF (lit "apple") /\ ~ In COMMA (lit "apple").
Proof.
  exact (let H := texts_without_separators fruitSample _ (lit "apple")
                    eq_refl (or_introl eq_refl) in
         conj (proj1 H) (proj2 H (le_n 2))).
Defined.

End FixSpec.

(** ** Windows line ends *)

Module LineEndSpec.
Import JS Csv Analyzer JSFacts CsvFacts ExportFacts Samples Component Shapes.

Lemma addCR_consHead c l :
  l <> [] -> addCR (consHead c l) = consHead c (addCR l).
Proof.
  destruct l as [|w ws]; [congruence|intros _].
  destruct ws; reflexivity.
Qed.

Lemma split_toCRLF s : split LF (toCRLF s) = addCR (split LF s).
Proof.
  induction s as [|c s IH]; [reflexivity|].
  unfold toCRLF; cbn [flat_map]; fold (toCRLF s).
  cbn [split]; destruct (Ascii.eqb c LF) eqn:E.
  - cbn [app split]; change (Ascii.eqb CR LF) with false.
    change (Ascii.eqb LF LF) with true; cbv iota.
    rewrite IH; cbn [consHead].
    pose proof (split_not_nil LF s) as Hne.
    destruct (split LF s); [congruence|reflexivity].
  - cbn [app split]; rewrite E, IH.
    symmetry; apply addCR_consHead, split_not_nil.
Qed.

Lemma addCR_upToCR pieces : Forall2 upToCR pieces (addCR pieces).
Proof.
  induction pieces as [|w ws IH]; [constructor|].
  cbn [addCR]; destruct ws as [|w' ws'].
  - constructor; [left; reflexivity|constructor].
  - constructor; [right; reflexivity|exact IH].
Qed.

Lemma dropWhile_app_some p l c :
  dropWhile p l <> [] -> dropWhile p (l ++ [c]) = dropWhile p l ++ [c].
Proof.
  induction l as [|x l IH]; cbn [dropWhile app]; [congruence|].
  destruct (p x); [exact IH|reflexivity].
Qed.

Lemma dropWhile_app_all p l c :
  dropWhile p l = [] -> p c = true -> dropWhile p (l ++ [c]) = [].
Proof.
  intros H Hc; induction l as [|x l IH]; cbn [dropWhile app] in *.
  - rewrite Hc; reflexivity.
  - destruct (p x); [apply IH; exact H|discriminate].
Qed.

(** White space at the end of a string does not change its [trim]. *)
Lemma trim_app_white s c : isWhiteSpace c = true -> trim (s ++ [c]) = trim s.
Proof.
  intros Hc; unfold trim, trimStart.
  destruct (dropWhile isWhiteSpace s) as [|x t] eqn:E.
  - rewrite (dropWhile_app_all _ _ _ E Hc); reflexivity.
  - rewrite dropWhile_app_some by (rewrite E; discriminate).
    rewrite E; unfold trimEnd.
    rewrite rev_app_distr; cbn [rev app dropWhile]; rewrite Hc; reflexivity.
Qed.

Lemma trim_upToCR l l' : upToCR l l' -> trim l' = trim l.
Proof.
  intros [->| ->]; [reflexivity|apply trim_app_white; reflexivity].
Qed.

Lemma split_app_last sep s c :
  Ascii.eqb c sep = false ->
  exists init w,
    split sep s = init ++ [w] /\ split sep (s ++ [c]) = init ++ [w ++ [c]].
Proof.
  intros Hc; induction s as [|x s IH].
  - exists [], []; cbn [split app]; rewrite Hc; split; reflexivity.
  - destruct IH as (init & w & E & E'); cbn [app split].
    destruct (Ascii.eqb x sep).
    + exists ([] :: init), w; rewrite E, E'; split; reflexivity.
    + rewrite E, E'; destruct init as [|i init'].
      * exists [], (x :: w); split; reflexivity.
      * exists ((x :: i) :: init'), w; split; reflexivity.
Qed.

Lemma cells_app_CR line : cells (line ++ [CR]) = cells line.
Proof.
  unfold cells.
  destruct (split_app_last COMMA line CR eq_refl) as (init & w & -> & ->).
  rewrite !map_app; cbn [map].
  rewrite (trim_app_white w CR eq_refl); reflexivity.
Qed.

Lemma cells_upToCR l l' : upToCR l l' -> cells l' = cells l.
Proof. intros [->| ->]; [reflexivity|apply cells_app_CR]. Qed.

Lemma rowText_upToCR column l l' :
  upToCR l l' -> rowText column l' = rowText column l.
Proof.
  intros H; unfold rowText.
  rewrite (trim_upToCR _ _ H), (cells_upToCR _ _ H); reflexivity.
Qed.

Lemma extract_upToCR column rows rows' :
  Forall2 upToCR rows rows' -> extract column rows' = extract column rows.
Proof.
  induction 1 as [|l l' rows rows' H _ IH]; [reflexivity|].
  cbn [extract]; rewrite (rowText_upToCR _ _ _ H), IH; reflexivity.
Qed.

Lemma startsWith_app_outside s p c :
  ~ In c p -> startsWith (s ++ [c]) p = startsWith s p.
Proof.
  revert s; induction p as [|a p IH]; intros s Hc.
  - destruct s; reflexivity.
  - destruct s as [|y s]; cbn [app startsWith].
    + destruct (Ascii.eqb a c) eqn:E; [|reflexivity].
      apply Ascii.eqb_eq in E; subst; exfalso; apply Hc; left; reflexivity.
    + rewrite IH by (intros H; apply Hc; right; exact H); reflexivity.
Qed.

Lemma includes_app_outside s p c :
  ~ In c p -> includes (s ++ [c]) p = includes s p.
Proof.
  intros Hc; induction s as [|y s IH].
  - pose proof (startsWith_app_outside [] p c Hc) as E; cbn [app] in E.
    cbn [app includes]; rewrite E.
    destruct (startsWith [] p); reflexivity.
  - cbn [app includes].
    change (startsWith (y :: s ++ [c]) p) with (startsWith ((y :: s) ++ [c]) p).
    rewrite (startsWith_app_outside (y :: s) p c Hc), IH; reflexivity.
Qed.

Lemma hasHeaderIndicators_upToCR l l' :
  upToCR l l' -> hasHeaderIndicators l' = hasHeaderIndicators l.
Proof.
  intros [->| ->]; [reflexivity|].
  unfold hasHeaderIndicators, toLowerCase; rewrite map_app; cbn [map].
  change (toLowerChar CR) with CR.
  assert (H : Forall (fun indicator => ~ In CR indicator) headerIndicators).
  { repeat constructor; intros Hin; cbn in Hin;
      repeat destruct Hin as [Hin|Hin]; try discriminate Hin; exact Hin. }
  induction H as [|indicator rest Hi _ IH]; [reflexivity|].
  cbn [existsb]; rewrite (includes_app_outside _ _ _ Hi), IH; reflexivity.
Qed.

Lemma notBlank_upToCR l l' : upToCR l l' -> notBlank l' = notBlank l.
Proof. intros H; unfold notBlank; rewrite (trim_upToCR _ _ H); reflexivity. Qed.

Lemma filter_notBlank_upToCR ls ls' :
  Forall2 upToCR ls ls' ->
  Forall2 upToCR (filter notBlank ls) (filter notBlank ls').
Proof.
  induction 1 as [|l l' ls ls' H _ IH]; [constructor|].
  cbn [filter]; rewrite (notBlank_upToCR _ _ H).
  destruct (notBlank l); [constructor; assumption|exact IH].
Qed.

(** X8.  Windows line ends do not change what [parseCSV] answers: the file
    with a carriage return before every line feed gives the same batch, or
    the same error, as the file without. *)
Theorem parseCSV_line_ends (csv : str) :
  parseCSV (toCRLF csv) = parseCSV csv.
Proof.
  assert (H : Forall2 upToCR (nonBlankLines csv) (nonBlankLines (toCRLF csv))).
  { unfold nonBlankLines; rewrite split_toCRLF.
    apply filter_notBlank_upToCR, addCR_upToCR. }
  unfold parseCSV.
  destruct H as [|l1 l1' ls ls' H1 H]; [reflexivity|].
  destruct H as [|l2 l2' ls ls' H2 H].
  - rewrite (trim_upToCR _ _ H1); reflexivity.
  - assert (Hall : Forall2 upToCR (l1 :: l2 :: ls) (l1' :: l2' :: ls'))
      by (constructor; [exact H1|constructor; [exact H2|exact H]]).
    rewrite (hasHeaderIndicators_upToCR _ _ H1), (cells_upToCR _ _ H1).
    destruct (hasHeaderIndicators l1).
    + cbn [skipn].
      assert (Hrows : Forall2 upToCR (l2 :: ls) (l2' :: ls'))
        by (constructor; [exact H2|exact H]).
      destruct (findIndex isTextHeader (cells l1));
        rewrite (extract_upToCR _ _ _ Hrows); reflexivity.
    + cbn [skipn].
      destruct (findIndex isTextHeader [lit "text"]);
        rewrite (extract_upToCR _ _ _ Hall); reflexivity.
Qed.

End LineEndSpec.

(** ** The page *)

Module PageSpec.
Import JS Csv Analyzer JSFacts CsvFacts Samples Component Page PageSamples.

(** ** The batch runner, to its end *)

Lemma analyzeRows_state backend i total rest results st :
  snd (analyzeRows backend i total rest results st)
  = match rest with
    | [] => st
    | _ :: _ => setCsvProgress (i + length rest) total st
    end.
Proof.
  revert i results st; induction rest as [|t rest IH]; intros i results st;
    [reflexivity|].
  cbn [analyzeRows]; rewrite IH.
  destruct rest as [|t' rest']; cbn [length].
  - rewrite Nat.add_1_r; reflexivity.
  - unfold setCsvProgress; cbn [csvData selectedModel analysis
                                 isProcessingCsv csvResults currentCsvIndex].
    replace (S i + S (length rest'))%nat with (i + S (S (length rest')))%nat
      by lia.
    reflexivity.
Qed.

Lemma handleAnalyzeCSV_run
        (backend : nat -> str -> str -> completion AnalysisResult)
        (st : State) (data : CsvBatch) (first : str) (others : list str) :
  csvData st = Some data ->
  texts data = first :: others ->
  handleAnalyzeCSV backend st
  = {| csvData := Some data;
       selectedModel := selectedModel st;
       analysis := Some (rowResult backend (selectedModel st) 0 first);
       isProcessingCsv := false;
       csvResults :=
         Some (rowResults backend (selectedModel st) 0 (first :: others));
       csvProgress := (0, 0)%nat;
       currentCsvIndex := 0 |}.
Proof.
  intros Hdata Htexts; unfold handleAnalyzeCSV; rewrite Hdata, Htexts.
  change (length (first :: others) =? 0)%nat with false; cbv iota.
  pose proof (BatchSpec.analyzeRows_results backend 0
                (length (first :: others)) (first :: others) []
                (setCsvProgress 0 (length (first :: others))
                                (setIsProcessingCsv true st))) as Hr.
  pose proof (analyzeRows_state backend 0
                (length (first :: others)) (first :: others) []
                (setCsvProgress 0 (length (first :: others))
                                (setIsProcessingCsv true st))) as Hs.
  destruct (analyzeRows _ _ _ _ _ _) as [results st'].
  cbn [fst snd] in Hr, Hs; subst results st'.
  unfold setCsvProgress, setIsProcessingCsv, setAnalysis, setCurrentCsvIndex,
    setCsvResults; cbn; rewrite Hdata; reflexivity.
Qed.

(** X9.  The state after [handleAnalyzeCSV] on a batch with at least one
    text: the results are stored, the first of them is the analysis on
    display, the index is 0, the busy flag is off and the progress is back
    to 0 of 0; the batch and the selected model are as before. *)
Theorem handleAnalyzeCSV_final
        (backend : nat -> str -> str -> completion AnalysisResult)
        (st : State) (data : CsvBatch) (first : str) (others : list str) :
  csvData st = Some data ->
  texts data = first :: others ->
  handleAnalyzeCSV backend st
  = {| csvData := Some data;
       selectedModel := selectedModel st;
       analysis := Some (rowResult backend (selectedModel st) 0 first);
       isProcessingCsv := false;
       csvResults :=
         Some (rowResults backend (selectedModel st) 0 (first :: others));
       csvProgress := (0, 0)%nat;
       currentCsvIndex := 0 |}.
Proof. exact (handleAnalyzeCSV_run backend st data first others). Qed.

Lemma handleAnalyzeCSV_skipped backend st :
  (forall data, csvData st = Some data -> texts data = []) ->
  handleAnalyzeCSV backend st = st.
Proof.
  intros H; unfold handleAnalyzeCSV.
  destruct (csvData st) as [data|]; [|reflexivity].
  rewrite (H data eq_refl); reflexivity.
Qed.

(** ** The index on display *)

Lemma indexInRange_analyzeCSV backend st :
  indexInRange st -> indexInRange (handleAnalyzeCSV backend st).
Proof.
  intros H; destruct (csvData st) as [data|] eqn:Hdata.
  - destruct (texts data) as [|first others] eqn:Htexts.
    + rewrite handleAnalyzeCSV_skipped; [exact H|].
      intros d E; rewrite Hdata in E; injection E as <-; exact Htexts.
    + rewrite (handleAnalyzeCSV_run backend st data first others Hdata
                 Htexts).
      unfold indexInRange; cbn [csvResults currentCsvIndex rowResults length]; lia.
  - rewrite handleAnalyzeCSV_skipped; [exact H|].
    intros d E; rewrite Hdata in E; discriminate.
Qed.

Lemma previousIndex_le st : (previousIndex st <= currentCsvIndex st)%nat.
Proof. unfold previousIndex; lia. Qed.

Lemma nextIndex_lt st results :
  csvResults st = Some results -> results <> [] ->
  (nextIndex st < length results)%nat.
Proof.
  intros E Hne; unfold nextIndex; rewrite E.
  destruct results; [congruence|cbn [length]; lia].
Qed.

Lemma indexInRange_showAt st i results :
  csvResults st = Some results -> (i < length results)%nat ->
  indexInRange (showAt i st).
Proof.
  intros E Hi; unfold showAt, indexInRange; rewrite E.
  unfold setAnalysisTo, setCurrentCsvIndex;
    cbn [csvResults currentCsvIndex]; rewrite E; exact Hi.
Qed.

Lemma indexInRange_showPrevious st :
  indexInRange st -> indexInRange (showPrevious st).
Proof.
  intros H; unfold showPrevious.
  destruct (navigationRendered st) eqn:N; [|exact H].
  unfold navigationRendered in N; unfold indexInRange in H.
  destruct (csvResults st) as [[|r rs]|] eqn:E; try discriminate.
  apply (indexInRange_showAt st _ (r :: rs) E).
  pose proof (previousIndex_le st); lia.
Qed.

Lemma indexInRange_showNext st :
  indexInRange st -> indexInRange (showNext st).
Proof.
  intros H; unfold showNext.
  destruct (navigationRendered st) eqn:N; [|exact H].
  unfold navigationRendered in N.
  destruct (csvResults st) as [[|r rs]|] eqn:E; try discriminate.
  apply (indexInRange_showAt st _ (r :: rs) E).
  apply (nextIndex_lt st (r :: rs) E); discriminate.
Qed.

Lemma handleFileUpload_results file p :
  csvResults (state (handleFileUpload file p)) = csvResults (state p) /\
  currentCsvIndex (state (handleFileUpload file p))
  = currentCsvIndex (state p) /\
  analysis (state (handleFileUpload file p)) = analysis (state p).
Proof.
  unfold handleFileUpload; destruct file as [f|]; [|auto].
  destruct (endsWith (name f) (lit ".csv")); [|auto].
  destruct (parseCSV (loaded f)) as [batch|message]; [|auto].
  destruct (warning batch) as [w|]; [destruct (truthy w)|]; auto.
Qed.

Lemma handleAnalyze_results backend p :
  csvResults (state (handleAnalyze backend p)) = csvResults (state p) /\
  currentCsvIndex (state (handleAnalyze backend p))
  = currentCsvIndex (state p).
Proof.
  unfold handleAnalyze; destruct (negb (truthy (trim (text p)))); [auto|].
  cbn [setIsLoading state text onState];
    destruct (backend _ _); auto.
Qed.

Lemma step_indexInRange p q :
  step p q -> indexInRange (state p) -> indexInRange (state q).
Proof.
  intros Hstep H; destruct Hstep; cbn [state onState setText].
  - unfold indexInRange in *.
    destruct (handleFileUpload_results file p) as (-> & -> & _); exact H.
  - exact H.
  - exact H.
  - unfold indexInRange in *.
    destruct (handleAnalyze_results backend p) as (-> & ->); exact H.
  - apply indexInRange_analyzeCSV; exact H.
  - apply indexInRange_showPrevious; exact H.
  - apply indexInRange_showNext; exact H.
Qed.

(** X10.  In every state that the handlers can reach from the initial state,
    the index on display is an index of the stored results; so a click on
    either arrow, when they are rendered, puts a result on display, never
    [undefined], and it is the result at the new index. *)
Theorem navigation_within_results (p : Page) :
  reachable p ->
  indexInRange (state p) /\
  (navigationRendered (state p) = true ->
   exists results before after,
     csvResults (state p) = Some results /\
     nth_error results (previousIndex (state p)) = Some before /\
     nth_error results (nextIndex (state p)) = Some after /\
     analysis (showPrevious (state p)) = Some before /\
     currentCsvIndex (showPrevious (state p)) = previousIndex (state p) /\
     analysis (showNext (state p)) = Some after /\
     currentCsvIndex (showNext (state p)) = nextIndex (state p)).
Proof.
  intros Hreach.
  assert (Hin : indexInRange (state p)).
  { induction Hreach as [|p q _ IH Hstep]; [exact I|].
    eapply step_indexInRange; eassumption. }
  split; [exact Hin|].
  intros Hnav; unfold showPrevious, showNext; rewrite Hnav.
  unfold navigationRendered in Hnav; unfold indexInRange in Hin.
  unfold showAt.
  destruct (csvResults (state p)) as [[|r rs]|] eqn:E; try discriminate.
  pose proof (previousIndex_le (state p)) as Hprev.
  pose proof (nextIndex_lt (state p) (r :: rs) E ltac:(discriminate)) as Hnext.
  destruct (nth_error (r :: rs) (previousIndex (state p))) as [before|] eqn:Eb;
    [|apply nth_error_None in Eb; lia].
  destruct (nth_error (r :: rs) (nextIndex (state p))) as [after|] eqn:Ea;
    [|apply nth_error_None in Ea; lia].
  exists (r :: rs), before, after.
  unfold setAnalysisTo, setCurrentCsvIndex; cbn [analysis currentCsvIndex].
  auto 10.
Qed.

(** ** Loading a file *)

Lemma parseCSV_warning csv batch w :
  parseCSV csv = Return batch -> warning batch = Some w ->
  w = noTextColumnWarning.
Proof.
  unfold parseCSV; destruct (nonBlankLines csv) as [|l1 [|l2 rest]];
    [discriminate|intros [= <-]; discriminate|].
  destruct (findIndex _ _); intros [= <-]; cbn [warning]; congruence.
Qed.

Lemma parseCSV_throws csv message :
  parseCSV csv = Throw message ->
  message = emptyFileMessage /\ nonBlankLines csv = [].
Proof.
  unfold parseCSV; destruct (nonBlankLines csv) as [|l1 [|l2 rest]];
    [intros [= <-]; auto|discriminate|].
  destruct (findIndex _ _); discriminate.
Qed.

Lemma parseCSV_blank csv :
  Forall (fun line => trim line = []) (split LF csv) ->
  parseCSV csv = Throw emptyFileMessage.
Proof.
  intros H; apply nonBlankLines_nil in H.
  unfold parseCSV; rewrite H; reflexivity.
Qed.

(** X11.  What loading a file whose name ends in [.csv] does.  When no line
    of it is left after trimming, the one thing that happens is the alert
    that the file appears to be empty; otherwise the batch of [parseCSV] is
    stored and the text input is cleared, with the alert of the warning when
    the batch has one.  No other alert is ever raised: the other two
    messages of the [catch] cannot occur.  In both cases the results of an
    earlier batch run and the analysis on display stay as they are. *)
Theorem handleFileUpload_csv (f : File) (p : Page) :
  endsWith (name f) (lit ".csv") = true ->
  (Forall (fun line => trim line = []) (split LF (loaded f)) ->
   handleFileUpload (Some f) p = alert emptyFileAlert p) /\
  (forall batch,
     parseCSV (loaded f) = Return batch ->
     handleFileUpload (Some f) p
     = match warning batch with
       | Some _ =>
           alert warningAlert (setText [] (onState (setCsvData batch) p))
       | None => setText [] (onState (setCsvData batch) p)
       end) /\
  (forall message,
     alerts (handleFileUpload (Some f) p) = message :: alerts p ->
     message = emptyFileAlert \/ message = warningAlert) /\
  csvResults (state (handleFileUpload (Some f) p)) = csvResults (state p) /\
  analysis (state (handleFileUpload (Some f) p)) = analysis (state p).
Proof.
  intros Hname.
  assert (Hcase :
            (parseCSV (loaded f) = Throw emptyFileMessage /\
             handleFileUpload (Some f) p = alert emptyFileAlert p) \/
            (exists batch,
               parseCSV (loaded f) = Return batch /\
               handleFileUpload (Some f) p
               = match warning batch with
                 | Some _ =>
                     alert warningAlert
                           (setText [] (onState (setCsvData batch) p))
                 | None => setText [] (onState (setCsvData batch) p)
                 end)).
  { unfold handleFileUpload; rewrite Hname.
    destruct (parseCSV (loaded f)) as [batch|message] eqn:E.
    - right; exists batch; split; [reflexivity|].
      destruct (warning batch) as [w|] eqn:Ew; [|reflexivity].
      rewrite (parseCSV_warning _ _ _ E Ew); reflexivity.
    - left; destruct (parseCSV_throws _ _ E) as [-> _].
      split; reflexivity. }
  split; [|split; [|split]].
  - intros Hblank; apply parseCSV_blank in Hblank.
    destruct Hcase as [[_ H]|(batch & E & _)]; [exact H|congruence].
  - intros batch E.
    destruct Hcase as [[E' _]|(batch' & E' & H)]; [congruence|].
    rewrite E in E'; injection E' as <-; exact H.
  - intros message.
    destruct Hcase as [[_ ->]|(batch & _ & ->)].
    + cbn [alerts alert]; intros [= <-]; left; reflexivity.
    + destruct (warning batch); cbn [alerts alert setText onState].
      * intros [= <-]; right; reflexivity.
      * intros H; exfalso.
        apply (f_equal (@length _)) in H; cbn [length] in H; lia.
  - split; apply handleFileUpload_results.
Qed.

(** ** The panel after a batch run *)



Lemma handleAnalyzeCSV_final_witness :
  handleAnalyzeCSV failingSecond (Samples.loaded threeTexts)
  = {| csvData := Some threeTexts;
       selectedModel := selectedModel (Samples.loaded threeTexts);
       analysis :=
         Some (positiveResult (lit "one")
                              (selectedModel (Samples.loaded threeTexts)));
       isProcessingCsv := false;
       csvResults :=
         Some [positiveResult (lit "one")
                              (selectedModel (Samples.loaded threeTexts));
               errorResult (lit "two") (lit "Analysis failed")
                           (selectedModel (Samples.loaded threeTexts));
               positiveResult (lit "three")
                              (selectedModel (Samples.loaded threeTexts))];
       csvProgress := (0, 0)%nat;
       currentCsvIndex := 0 |}.
Proof.
  exact (handleAnalyzeCSV_final failingSecond (Samples.loaded threeTexts)
           threeTexts (lit "one") [lit "two"; lit "three"] eq_refl eq_refl).
Defined.

Lemma handleFileUpload_csv_witness :
  handleFileUpload (Some sampleFile) initialPage
  = alert warningAlert
      (setText []
         (onState
            (setCsvData
               {| headers := [lit "my_text"; lit "label"];
                  texts := [lit "hello"; lit "world"];
                  totalRows := 2; hasHeaders := true;
                  warning := Some noTextColumnWarning |})
            initialPage)).
Proof.
  exact (proj1 (proj2 (handleFileUpload_csv sampleFile initialPage eq_refl))
               _ eq_refl).
Defined.

Lemma navigation_within_results_witness :
  exists results before after,
    csvResults (state analyzedPage) = Some results /\
    nth_error results (previousIndex (state analyzedPage)) = Some before /\
    nth_error results (nextIndex (state analyzedPage)) = Some after /\
    analysis (showPrevious (state analyzedPage)) = Some before /\
    currentCsvIndex (showPrevious (state analyzedPage))
    = previousIndex (state analyzedPage) /\
    analysis (showNext (state analyzedPage)) = Some after /\
    currentCsvIndex (showNext (state analyzedPage))
    = nextIndex (state analyzedPage).
Proof.
  exact (proj2 (navigation_within_results analyzedPage
                  (ReachStep _ _
                     (ReachStep _ _ ReachInitial
                                (StepUpload (Some sampleFile) initialPage))
                     (StepAnalyzeCSV failingSecond _)))
               eq_refl).
Defined.

Example analyzedPage_next :
  currentCsvIndex (showNext (state analyzedPage)) = 1%nat /\
  analysis (showNext (state analyzedPage))
  = Some (errorResult (lit "world") (lit "Analysis failed")
                      (selectedModel initialState)) /\
  currentCsvIndex (showNext (showNext (state analyzedPage))) = 1%nat /\
  currentCsvIndex (showPrevious (state analyzedPage)) = 0%nat.
Proof. repeat split. Qed.

End PageSpec.

(** ** The report and the names on display *)

Module ReportSpec.
Import JS Csv Analyzer JSFacts CsvFacts Samples Component Page Display PageSamples FixSpec PageSpec.

(** ** Stepping through the results *)






(** ** The counts of the report *)

Lemma sentimentCount_cons label r results :
  sentimentCount label (r :: results)
  = ((if hasSentiment label r then 1 else 0)
     + sentimentCount label results)%nat.
Proof.
  unfold sentimentCount; cbn [filter].
  destruct (hasSentiment label r); reflexivity.
Qed.

Lemma hasSentiment_one r :
  ((if hasSentiment POSITIVE r then 1 else 0)
   + (if hasSentiment NEGATIVE r then 1 else 0)
   + (if hasSentiment NEUTRAL r then 1 else 0) <= 1)%nat.
Proof.
  unfold hasSentiment; destruct (sentiment r) as [s|]; [|cbn; lia].
  destruct (str_eqb s POSITIVE) eqn:E1.
  - apply str_eqb_eq in E1; subst s; cbn; lia.
  - destruct (str_eqb s NEGATIVE) eqn:E2.
    + apply str_eqb_eq in E2; subst s; cbn; lia.
    + destruct (str_eqb s NEUTRAL); cbn; lia.
Qed.

Lemma hasSentiment_errorResult label t message model :
  In label [POSITIVE; NEGATIVE; NEUTRAL] ->
  hasSentiment label (errorResult t message model) = false.
Proof.
  intros [<-|[<-|[<-|[]]]]; reflexivity.
Qed.

Lemma counts_rowResults backend model i rest :
  (sentimentCount POSITIVE (rowResults backend model i rest)
   + sentimentCount NEGATIVE (rowResults backend model i rest)
   + sentimentCount NEUTRAL (rowResults backend model i rest)
   + failedCalls backend model i rest <= length rest)%nat.
Proof.
  revert i; induction rest as [|t rest IH]; intros i; [cbn; lia|].
  cbn [rowResults failedCalls length]; rewrite !sentimentCount_cons.
  specialize (IH (S i)).
  unfold rowResult; destruct (backend i t model) as [result|message].
  - pose proof (hasSentiment_one result); lia.
  - rewrite !hasSentiment_errorResult by (cbn; auto); lia.
Qed.

(** X14.  After a batch run the three counts of the report, of the results
    whose [sentiment] is exactly POSITIVE, NEGATIVE or NEUTRAL, count
    different rows, and no row whose call failed is among them: their sum
    and the number of failed calls together are at most the number of
    texts. *)
Theorem report_counts_leave_out_failures
        (backend : nat -> str -> str -> completion AnalysisResult)
        (st : State) (data : CsvBatch) (first : str) (others : list str) :
  csvData st = Some data ->
  texts data = first :: others ->
  exists results,
    csvResults (handleAnalyzeCSV backend st) = Some results /\
    (sentimentCount POSITIVE results + sentimentCount NEGATIVE results
     + sentimentCount NEUTRAL results
     + failedCalls backend (selectedModel st) 0 (texts data)
     <= length (texts data))%nat.
Proof.
  intros Hdata Htexts.
  rewrite (handleAnalyzeCSV_run backend st data first others Hdata Htexts).
  eexists; split; [reflexivity|].
  rewrite Htexts; apply counts_rowResults.
Qed.

Lemma report_counts_leave_out_failures_witness :
  exists results,
    csvResults (handleAnalyzeCSV failingSecond (Samples.loaded threeTexts))
    = Some results /\
    (sentimentCount POSITIVE results + sentimentCount NEGATIVE results
     + sentimentCount NEUTRAL results
     + failedCalls failingSecond
                   (selectedModel (Samples.loaded threeTexts)) 0
                   (texts threeTexts)
     <= length (texts threeTexts))%nat.
Proof.
  exact (report_counts_leave_out_failures failingSecond
           (Samples.loaded threeTexts) threeTexts
           (lit "one") [lit "two"; lit "three"] eq_refl eq_refl).
Defined.

Example counts_after_failingSecond :
  let results :=
    rowResults failingSecond (selectedModel (Samples.loaded threeTexts)) 0
               (texts threeTexts) in
  sentimentCount POSITIVE results = 2%nat /\
  sentimentCount NEGATIVE results = 0%nat /\
  sentimentCount NEUTRAL results = 0%nat /\
  failedCalls failingSecond (selectedModel (Samples.loaded threeTexts)) 0
              (texts threeTexts) = 1%nat.
Proof. repeat split. Qed.

(** ** The names of the models *)

Lemma join_split sep s : join sep (split sep s) = s.
Proof.
  induction s as [|c s IH]; [reflexivity|]; cbn [split].
  pose proof (split_not_nil sep s) as Hne.
  destruct (Ascii.eqb c sep) eqn:E.
  - apply Ascii.eqb_eq in E; subst c.
    destruct (split sep s) as [|w ws]; [congruence|].
    cbn [join app]; cbn [join] in IH; rewrite IH; reflexivity.
  - destruct (split sep s) as [|w ws]; [congruence|].
    cbn [consHead]; destruct ws as [|w' ws]; cbn [join] in *.
    + rewrite IH; reflexivity.
    + cbn [app]; rewrite IH; reflexivity.
Qed.

Lemma join_last sep pieces :
  pieces <> [] ->
  exists before,
    join sep pieces = before ++ last pieces [] /\
    (before = [] \/ exists before', before = before' ++ [sep]).
Proof.
  induction pieces as [|w ws IH]; [congruence|]; intros _.
  destruct ws as [|w' ws].
  - exists []; cbn; auto.
  - destruct (IH ltac:(discriminate)) as (before & E & Hb).
    change (last (w :: w' :: ws) []) with (last (w' :: ws) []).
    change (join sep (w :: w' :: ws)) with (w ++ sep :: join sep (w' :: ws)).
    rewrite E; exists (w ++ sep :: before); split.
    + rewrite <- app_assoc; reflexivity.
    + right; destruct Hb as [->|(before' & ->)].
      * exists w; reflexivity.
      * exists (w ++ sep :: before'); rewrite <- app_assoc; reflexivity.
Qed.

Lemma in_last (A : Type) (l : list A) (d : A) : l <> [] -> In (last l d) l.
Proof.
  induction l as [|x l IH]; [congruence|]; intros _.
  destruct l as [|y l]; [left; reflexivity|].
  right; apply IH; discriminate.
Qed.

Lemma ownProperty_in key m v :
  ownProperty key m = Some v -> In (key, v) m.
Proof.
  induction m as [|[k w] m IH]; cbn [ownProperty]; [discriminate|].
  destruct (str_eqb key k) eqn:E.
  - apply str_eqb_eq in E; subst k; intros [= ->]; left; reflexivity.
  - intros H; right; exact (IH H).
Qed.

Lemma pop_split name :
  ~ In SLASH (pop (split SLASH name)) /\
  exists before,
    name = before ++ pop (split SLASH name) /\
    (before = [] \/ exists before', before = before' ++ [SLASH]).
Proof.
  split.
  - apply (split_piece_no_sep SLASH name).
    apply in_last, split_not_nil.
  - destruct (join_last SLASH (split SLASH name) (split_not_nil SLASH name))
      as (before & E & Hb).
    rewrite join_split in E; exists before; auto.
Qed.

(** X15.  When [getModelDisplayName] gives a string, the string has no slash:
    it is the short name of one of the six models of [modelMap], for that
    model, or else the part of the given name after its last slash (all
    of it when it has none, the empty string when it ends in one).  What
    it gives is not a string exactly for the names of the members of
    [Object.prototype], which [modelMap] inherits. *)
Theorem getModelDisplayName_short (modelName : str) :
  (forall shown,
     getModelDisplayName modelName = Shown shown ->
     ~ In SLASH shown /\
     (In (modelName, shown) modelMap \/
      ownProperty modelName modelMap = None /\
      exists before,
        modelName = before ++ shown /\
        (before = [] \/ exists before', before = before' ++ [SLASH]))) /\
  (forall key,
     getModelDisplayName modelName = Inherited key <->
     key = modelName /\ In modelName inheritedNames).
Proof.
  unfold getModelDisplayName.
  destruct (ownProperty modelName modelMap) as [short|] eqn:Eown.
  - pose proof (ownProperty_in _ _ _ Eown) as Hin.
    assert (Hshort : truthy short = true /\ ~ In SLASH short /\
                     ~ In modelName inheritedNames).
    { cbn in Hin.
      repeat (destruct Hin as [Hin|Hin];
              [injection Hin as <- <-;
               split; [reflexivity|split; vm_compute; intros H;
                 repeat (destruct H as [H|H]; [discriminate H|]); exact H]|]).
      destruct Hin. }
    destruct Hshort as (Ht & Hs & Hn); rewrite Ht; split.
    + intros shown [= <-]; auto.
    + intros key; split; [discriminate|]. intros [_ H]; contradiction.
  - destruct (arrayIncludes inheritedNames modelName) eqn:Einh.
    + split; [discriminate|].
      intros key; split.
      * intros [= <-]; split; [reflexivity|].
        unfold arrayIncludes in Einh; apply existsb_exists in Einh.
        destruct Einh as (x & Hx & E); apply str_eqb_eq in E; subst; exact Hx.
      * intros [-> _]; reflexivity.
    + split.
      * intros shown [= <-].
        destruct (pop_split modelName) as (Hs & Hb); auto.
      * intros key; split; [discriminate|]. intros [_ H].
        assert (arrayIncludes inheritedNames modelName = true)
          by (unfold arrayIncludes; apply existsb_exists;
              exists modelName; split; [exact H|apply str_eqb_eq; reflexivity]).
        congruence.
Qed.

Lemma getModelDisplayName_short_witness :
  ~ In SLASH (lit "model-b") /\
  (In (lit "org/team/model-b", lit "model-b") modelMap \/
   ownProperty (lit "org/team/model-b") modelMap = None /\
   exists before,
     lit "org/team/model-b" = before ++ lit "model-b" /\
     (before = [] \/ exists before', before = before' ++ [SLASH])).
Proof.
  exact (proj1 (getModelDisplayName_short (lit "org/team/model-b"))
               (lit "model-b") eq_refl).
Defined.

Example getModelDisplayName_samples :
  getModelDisplayName (lit "ProsusAI/finbert") = Shown (lit "FinBERT") /\
  getModelDisplayName (lit "org/team/model-b") = Shown (lit "model-b") /\
  getModelDisplayName (lit "local-model") = Shown (lit "local-model") /\
  getModelDisplayName (lit "org/") = Shown [] /\
  getModelDisplayName (lit "constructor") = Inherited (lit "constructor").
Proof. repeat split. Qed.

End ReportSpec.
